(** * The secretary routine of FirstLady: admission, eviction scan and recovery

    A shallow embedding of [src/automation/routines/secretary.py]
    (class [SecretaryRoutine]).  The routine drives a game through external
    collaborators (template matching, OCR, taps, the clock).  Here every
    collaborator call is a typed [query] answered by an arbitrary device
    [respond], which may also raise; a method of the class is a computation
    that threads the device state and the [last_approve] dictionary, emits the
    transcript of the calls it made together with their answers, and either
    returns, raises, or runs out of loop fuel.

    Calls of [app_logger] are left out: they do not change what the routine
    does.  So are [open_profile_menu] and [_execute_internal], which depend
    on the screen size, on the automation's game state and on the handler of
    the base class.  Properties are stated for every device and read off the
    transcript of a run; the mock game at the end of the definitions serves
    to run the routine on concrete screens. *)

From stdpp Require Import gmap strings list sorting.

#[local] Open Scope Z_scope.

(** ** Data *)

(** A screen location [(x, y)], as the template matcher reports it. *)
Definition coord : Type := Z * Z.

(** Screenshots and text regions are opaque to the routine. *)
Definition image : Type := N.
Definition region : Type := N.

(** A collaborator either returns a value or raises. *)
Inductive res (A : Type) : Type :=
| Ok (a : A)
| Exn.
Arguments Ok {A} a.
Arguments Exn {A}.

(** The external calls of the routine, indexed by the type of their result.
    The device identifier, constant throughout, is left out; so are the
    [error_msg] and [critical=True] arguments of [find_and_tap_template].
    Timestamps are microseconds, durations are in the unit of the
    configuration. *)
Inductive query : Type -> Type :=
| q_find_template (name : string) : query (option coord)
| q_find_all_templates (name : string) : query (list coord)
| q_find_and_tap_template (name : string) (timeout : option Z) : query bool
| q_wait_for_image (name : string) (timeout : Z) : query (option coord)
| q_take_screenshot : query bool
| q_imread (path : string) : query (option image)
| q_get_text_regions (anchor : coord) (existing_screenshot : image)
  : query (region * region * image)
| q_extract_text_from_region (rg : region) (languages : string) (img : image)
  : query (string * string)
| q_humanized_tap (c : coord) : query unit
| q_press_back : query unit
| q_human_delay (d : Z) : query unit
| q_handle_swipes (direction : string) (num_swipes : option Z) : query unit
| q_log_rejected_alliance (alliance_text original_text : string) : query unit
| q_play_beep : query unit
| q_input (prompt : string) : query string
| q_now : query Z.

(** One entry of the transcript: a call and what it answered. *)
Inductive event : Type :=
| Ev (T : Type) (q : query T) (r : res T).
Arguments Ev {T} q r.

(** [CONFIG['timings']]. *)
Record timings : Type := {
  tap_delay : Z;
  menu_animation : Z;
  settle_time : Z;
  list_timeout : Z
}.

(** [CONFIG['auto_remove']]: a dictionary with the optional keys ["active"]
    and ["title_cfg"]; [title_cfg] maps a position to its delay in seconds. *)
Record auto_remove_cfg : Type := {
  active : option bool;
  title_cfg : option (gmap string Z)
}.

Record config : Type := {
  cfg_timings : timings;
  cfg_auto_remove : option auto_remove_cfg;
  cfg_applicant_offset : option coord
}.

(** ** Reading the transcript *)

(** Locations passed to [humanized_tap]. *)
Definition tap_of (e : event) : list coord :=
  match e with
  | Ev q _ => match q with q_humanized_tap c => [c] | _ => [] end
  end.
Definition taps (evs : list event) : list coord := evs ≫= tap_of.

(** Templates passed to [find_and_tap_template]. *)
Definition template_tap_of (e : event) : list string :=
  match e with
  | Ev q _ => match q with q_find_and_tap_template n _ => [n] | _ => [] end
  end.
Definition template_taps (evs : list event) : list string := evs ≫= template_tap_of.

(** Calls of [find_and_tap_template] for [name] that answered [False]. *)
Definition failed_template_tap_of (name : string) (e : event) : list unit :=
  match e with
  | @Ev T q r =>
      match q in query T return res T -> list unit with
      | q_find_and_tap_template n _ => fun r =>
          match r with
          | Ok false => if decide (n = name) then [()] else []
          | _ => []
          end
      | _ => fun _ => []
      end r
  end.
Definition failed_template_taps (name : string) (evs : list event) : nat :=
  length (evs ≫= failed_template_tap_of name).

(** Back-navigations. *)
Definition back_of (e : event) : list unit :=
  match e with
  | Ev q _ => match q with q_press_back => [()] | _ => [] end
  end.
Definition backs (evs : list event) : nat := length (evs ≫= back_of).

(** Answers of [wait_for_image] (the anchor checks of the recovery loop). *)
Definition wait_of (e : event) : list (res (option coord)) :=
  match e with
  | @Ev T q r =>
      match q in query T return res T -> list (res (option coord)) with
      | q_wait_for_image _ _ => fun r => [r]
      | _ => fun _ => []
      end r
  end.
Definition anchor_checks (evs : list event) : list (res (option coord)) :=
  evs ≫= wait_of.

(** Screenshots taken: one opens every pass of the admission loop. *)
Definition screenshot_of (e : event) : list unit :=
  match e with
  | Ev q _ => match q with q_take_screenshot => [()] | _ => [] end
  end.
Definition screenshots (evs : list event) : nat := length (evs ≫= screenshot_of).

(** Answers of [find_all_templates] for the template [name]. *)
Definition matches_of (name : string) (e : event) : list (res (list coord)) :=
  match e with
  | @Ev T q r =>
      match q in query T return res T -> list (res (list coord)) with
      | q_find_all_templates n => fun r => if decide (n = name) then [r] else []
      | _ => fun _ => []
      end r
  end.
Definition template_matches (name : string) (evs : list event)
  : list (res (list coord)) := evs ≫= matches_of name.

(** Answers of [find_template] for the template [name]. *)
Definition lookup_of (name : string) (e : event) : list (res (option coord)) :=
  match e with
  | @Ev T q r =>
      match q in query T return res T -> list (res (option coord)) with
      | q_find_template n => fun r => if decide (n = name) then [r] else []
      | _ => fun _ => []
      end r
  end.
Definition template_lookups (name : string) (evs : list event)
  : list (res (option coord)) := evs ≫= lookup_of name.

(** Texts returned by [extract_text_from_region]. *)
Definition extracted_of (e : event) : list (string * string) :=
  match e with
  | @Ev T q r =>
      match q in query T return res T -> list (string * string) with
      | q_extract_text_from_region _ _ _ => fun r =>
          match r with Ok t => [t] | Exn => [] end
      | _ => fun _ => []
      end r
  end.
Definition extracted (evs : list event) : list (string * string) :=
  evs ≫= extracted_of.

(** Arguments of [log_rejected_alliance]. *)
Definition rejection_of (e : event) : list (string * string) :=
  match e with
  | Ev q _ =>
      match q with q_log_rejected_alliance a o => [(a, o)] | _ => [] end
  end.
Definition rejections_logged (evs : list event) : list (string * string) :=
  evs ≫= rejection_of.

(** Readings of [datetime.datetime.now()]. *)
Definition reading_of (e : event) : list Z :=
  match e with
  | @Ev T q r =>
      match q in query T return res T -> list Z with
      | q_now => fun r => match r with Ok t => [t] | Exn => [] end
      | _ => fun _ => []
      end r
  end.
Definition clock_readings (evs : list event) : list Z := evs ≫= reading_of.

(** ** Sorting matches: [sorted(matches, key=lambda x: (x[1], x[0]))] *)

Definition yx_leb (a b : coord) : bool :=
  (a.2 <? b.2) || ((a.2 =? b.2) && (a.1 <=? b.1)).

Fixpoint insert_yx (a : coord) (l : list coord) : list coord :=
  match l with
  | [] => [a]
  | b :: l' => if yx_leb a b then a :: l else b :: insert_yx a l'
  end.

Definition sorted_yx (l : list coord) : list coord := foldr insert_yx [] l.

(** ** Computations *)

(** How a computation ends.  [OutOfFuel] is the model's only artefact: the
    [while] loop of the admission is run with a bound on its passes. *)
Inductive outcome (A : Type) : Type :=
| Val (a : A)
| Raised
| OutOfFuel.
Arguments Val {A} a.
Arguments Raised {A}.
Arguments OutOfFuel {A}.

(** What the routine can change: the device and [self.last_approve]. *)
Record world (S : Type) : Type := World {
  device : S;
  last_approve : gmap string Z
}.
Arguments World {S} device last_approve.
Arguments device {S} w.
Arguments last_approve {S} w.

Definition M (S A : Type) : Type :=
  world S -> outcome A * list event * world S.

Definition ret {S A} (a : A) : M S A := fun w => (Val a, [], w).

Definition bind {S A B} (m : M S A) (f : A -> M S B) : M S B := fun w =>
  match m w with
  | (Val a, evs1, w1) =>
      match f a w1 with
      | (o, evs2, w2) => (o, evs1 ++ evs2, w2)
      end
  | (Raised, evs1, w1) => (Raised, evs1, w1)
  | (OutOfFuel, evs1, w1) => (OutOfFuel, evs1, w1)
  end.

Declare Scope prog_scope.
Delimit Scope prog_scope with prog.
Notation "x ← y ; z" := (bind y (fun x => z))
  (at level 20, y at level 100, z at level 200, only parsing) : prog_scope.
Notation "' x ← y ; z" := (bind y (fun x => z))
  (at level 20, x pattern, y at level 100, z at level 200, only parsing)
  : prog_scope.
Notation "x ;; z" := (bind x (fun _ => z))
  (at level 100, z at level 200, only parsing, right associativity)
  : prog_scope.
#[local] Open Scope prog_scope.

(** [try: body except Exception: handler]. *)
Definition try_except {S A} (body handler : M S A) : M S A := fun w =>
  match body w with
  | (Raised, evs1, w1) =>
      match handler w1 with
      | (o, evs2, w2) => (o, evs1 ++ evs2, w2)
      end
  | r => r
  end.

Definition out_of_fuel {S A} : M S A := fun w => (OutOfFuel, [], w).

(** A loop that is still running after any number of passes. *)
Definition never_returns {S A} (loop : nat -> M S A) (w : world S) : Prop :=
  forall fuel, (loop fuel w).1.1 = OutOfFuel.

(** [self.last_approve[name]], a [KeyError] when the key is missing. *)
Definition get_last_approve {S} (name : string) : M S Z := fun w =>
  match last_approve w !! name with
  | Some t => (Val t, [], w)
  | None => (Raised, [], w)
  end.

Definition set_last_approve {S} (name : string) (t : Z) : M S unit := fun w =>
  (Val (), [], World (device w) (<[name := t]> (last_approve w))).

(** ** The routine *)

Definition secretary_types : list string :=
  ["strategy"; "security"; "development"; "science"; "interior"].
Definition additionalTypes : list string := ["military"; "administrative"].

(** How one pass through the body of [while processed < 5] ends: [break],
    [continue], or the end of the body with the increment of [accepted]. *)
Inductive pass : Type :=
| Break
| Continue
| Counted (accepted : nat).

(** ** Pure parts of the scanners *)

(** [d[k] = v] on a dictionary kept in insertion order. *)
Fixpoint dict_set (k : string) (v : coord) (d : list (string * coord))
  : list (string * coord) :=
  match d with
  | [] => [(k, v)]
  | (k', v') :: d' =>
      if decide (k' = k) then (k, v) :: d' else (k', v') :: dict_set k v d'
  end.

Fixpoint dict_get (k : string) (d : list (string * coord)) : option coord :=
  match d with
  | [] => None
  | (k', v) :: d' => if decide (k' = k) then Some v else dict_get k d'
  end.

(** The default of [CONFIG.get("applicant_offset", {"x": 150, "y": 50})]. *)
Definition default_applicant_offset : coord := (150, 50).

(** Line 383: [x_diff <= offset["x"] and y_diff <= offset["y"]]. *)
Definition within_offset (offset pos app : coord) : bool :=
  bool_decide (Z.abs (app.1 - pos.1) <= offset.1)
  && bool_decide (Z.abs (app.2 - pos.2) <= offset.2).

(** Lines 379-386: the inner loop, left at the first badge in the box. *)
Fixpoint applicant_nearby (offset pos : coord) (applicant_locations : list coord)
  : bool :=
  match applicant_locations with
  | [] => false
  | app :: rest =>
      if within_offset offset pos app then true
      else applicant_nearby offset pos rest
  end.

(** Lines 375-386: the outer loop over [all_positions.items()]. *)
Fixpoint positions_near_applicants (offset : coord)
    (all_positions : list (string * coord)) (applicant_locations : list coord)
  : list string :=
  match all_positions with
  | [] => []
  | (position_type, pos_loc) :: rest =>
      if applicant_nearby offset pos_loc applicant_locations then
        position_type
        :: positions_near_applicants offset rest applicant_locations
      else positions_near_applicants offset rest applicant_locations
  end.

(** [datetime.timedelta(seconds=d)] in microseconds, for a delay given as a
    whole number of seconds. *)
Definition seconds (d : Z) : Z := d * 1000000.

(** Truth value of the [auto_remove] dictionary: it is not empty. *)
Definition dict_truthy (c : auto_remove_cfg) : bool :=
  bool_decide (is_Some (active c)) || bool_decide (is_Some (title_cfg c)).

Section Routine.

Context {S : Type}.

(** The device and the collaborators behind it. *)
Variable respond : forall T, query T -> S -> res T * S.

Variable CONFIG : config.

(** [CONTROL_LIST['whitelist']['alliance']]. *)
Variable whitelist : list string.

(** [self.manual_deny]. *)
Variable manual_deny : bool.

Definition call {T} (q : query T) : M S T := fun w =>
  match respond T q (device w) with
  | (Ok v, s) => (Val v, [Ev q (Ok v)], World s (last_approve w))
  | (Exn, s) => (Raised, [Ev q Exn], World s (last_approve w))
  end.

(** [self.last_approve[name] = datetime.datetime.now()]. *)
Definition stamp_last_approve (name : string) : M S unit :=
  t ← call q_now; set_last_approve name t.

Definition find_accept_buttons : M S (list coord) :=
  try_except
    (matches ← call (q_find_all_templates "accept");
     match matches with
     | [] => ret []
     | _ => ret (sorted_yx matches)
     end)
    (ret []).

Definition find_reject_buttons : M S (list coord) :=
  try_except
    (matches ← call (q_find_all_templates "reject");
     match matches with
     | [] => ret []
     | _ => ret (sorted_yx matches)
     end)
    (ret []).

Definition verify_secretary_menu : M S bool :=
  found ← call (q_wait_for_image "president" (menu_animation (cfg_timings CONFIG)));
  ret (bool_decide (is_Some found)).

(** The body of [for _ in range(max_attempts)], with [n] attempts left. *)
Fixpoint exit_attempts (n : nat) : M S bool :=
  match n with
  | O => ret false
  | Datatypes.S n' =>
      anchored ← verify_secretary_menu;
      if anchored then ret true
      else
        call q_press_back;;
        call (q_human_delay (menu_animation (cfg_timings CONFIG)));;
        exit_attempts n'
  end.

Definition max_attempts : nat := 10.

Definition exit_to_secretary_menu : M S bool :=
  try_except (exit_attempts max_attempts) (ret false).

(** Lines 242-267: what is tapped once the reject controls are located. *)
Definition resolve_reject (name : string) (topmost_accept : coord)
    (reject_buttons : list coord) : M S pass :=
  match reject_buttons with
  | reject_button :: _ =>
      if Z.abs (reject_button.2 - topmost_accept.2) <=? 10 then
        call (q_humanized_tap reject_button);;
        confirmed ← call (q_find_and_tap_template "confirm" None);
        if confirmed then ret (Counted 0) else ret Continue
      else ret (Counted 0)
  | [] =>
      confirmed ← call (q_find_and_tap_template "confirm" None);
      if confirmed then stamp_last_approve name;; ret (Counted 0)
      else ret Continue
  end.

(** Lines 232-267: the [else] branch of the whitelist test. *)
Definition reject_candidate (name : string) (topmost_accept : coord)
    (alliance_text original_text : string) : M S pass :=
  call (q_log_rejected_alliance alliance_text original_text);;
  (if manual_deny
   then call q_play_beep;; call (q_input "Press Enter to continue...");; ret ()
   else ret ());;
  reject_buttons ← find_reject_buttons;
  resolve_reject name topmost_accept reject_buttons.

(** Lines 208-271: the decision on the topmost candidate. *)
Definition process_candidate (name : string) (topmost_accept : coord)
    (current_screenshot : image) : M S pass :=
  if bool_decide (0 < length whitelist)%nat then
    '(alliance_region, name_region, screenshot) ←
      call (q_get_text_regions topmost_accept current_screenshot);
    '(alliance_text, original_text) ←
      call (q_extract_text_from_region alliance_region "eng" screenshot);
    if bool_decide (alliance_text ∈ whitelist) then
      call (q_humanized_tap topmost_accept);;
      ret (Counted 1)
    else reject_candidate name topmost_accept alliance_text original_text
  else
    call (q_humanized_tap topmost_accept);;
    stamp_last_approve name;;
    ret (Counted 0).

(** Lines 195-271: one pass through the body of the [while] loop, up to but
    not including [processed += 1] and the settle delay. *)
Definition admission_pass (name : string) : M S pass :=
  shot ← call q_take_screenshot;
  if negb shot then ret Break
  else
    current_screenshot ← call (q_imread "tmp/screen.png");
    match current_screenshot with
    | None => ret Break
    | Some img =>
        accept_locations ← find_accept_buttons;
        match accept_locations with
        | [] => ret Break
        | topmost_accept :: _ => process_candidate name topmost_accept img
        end
    end.

(** [while processed < 5: ...], with a bound [fuel] on its passes: the loop
    runs out of fuel when its condition holds and no pass is left. *)
Fixpoint admission_loop (fuel : nat) (name : string) (processed accepted : nat)
  : M S (nat * nat) :=
  if bool_decide (processed < 5)%nat then
    match fuel with
    | O => out_of_fuel
    | Datatypes.S fuel' =>
        p ← admission_pass name;
        match p with
        | Break => ret (processed, accepted)
        | Continue => admission_loop fuel' name processed accepted
        | Counted a =>
            call (q_human_delay (settle_time (cfg_timings CONFIG)));;
            admission_loop fuel' name (processed + 1)%nat (accepted + a)%nat
        end
    end
  else ret (processed, accepted).

(** The [try] block of [process_secretary_position] (steps 1 to 5). *)
Definition process_secretary_position_body (fuel : nat) (name : string)
  : M S bool :=
  found ← call (q_find_and_tap_template name None);
  if negb found then ret true
  else
    call (q_human_delay (tap_delay (cfg_timings CONFIG)));;
    full_list ← call (q_find_template "full_list");
    if bool_decide (is_Some full_list) then
      anchored ← exit_to_secretary_menu;
      if negb anchored then ret false else ret true
    else
      listed ← call (q_find_and_tap_template "list"
                       (Some (list_timeout (cfg_timings CONFIG))));
      if negb listed then ret false
      else
        accept_locations ← find_accept_buttons;
        match accept_locations with
        | [] => ret ()
        | _ =>
            (if bool_decide (5 < length accept_locations)%nat then
               call (q_handle_swipes "up" None);;
               call (q_human_delay (settle_time (cfg_timings CONFIG) * 2))
             else ret ());;
            admission_loop fuel name 0 0;;
            ret ()
        end;;
        anchored ← exit_to_secretary_menu;
        if negb anchored then ret false else ret true.

Definition process_secretary_position (fuel : nat) (name : string) : M S bool :=
  try_except (process_secretary_position_body fuel name)
    (anchored ← exit_to_secretary_menu;
     if negb anchored then ret false else ret true).

(** Lines 350-357: [all_positions], an insertion-ordered dictionary, is
    filled with the first match of every position type that has one. *)
Fixpoint locate_positions (types : list string)
    (all_positions : list (string * coord)) : M S (list (string * coord)) :=
  match types with
  | [] => ret all_positions
  | position_type :: rest =>
      positions ← call (q_find_all_templates position_type);
      match positions with
      | [] => locate_positions rest all_positions
      | first :: _ =>
          locate_positions rest (dict_set position_type first all_positions)
      end
  end.

Definition find_positions_with_applicants : M S (list string) :=
  try_except
    (all_positions ← locate_positions (secretary_types ++ additionalTypes) [];
     applicant_locations ← call (q_find_all_templates "has_applicant");
     match applicant_locations with
     | [] => ret []
     | _ =>
         let applicant_offset :=
           default default_applicant_offset (cfg_applicant_offset CONFIG) in
         ret (positions_near_applicants applicant_offset all_positions
                applicant_locations)
     end)
    (ret []).

(** Lines 412-433: the body of the loop of [find_positions_to_remove] for one
    position; [true] when the position is appended to [positions_to_remove]. *)
Definition remove_check (title_cfg : gmap string Z) (position_type : string)
  : M S bool :=
  match title_cfg !! position_type with
  | None => ret false
  | Some auto_remove_delay =>
      if bool_decide (auto_remove_delay = 0) then ret false
      else
        now ← call q_now;
        approved ← get_last_approve position_type;
        if bool_decide (now - approved < seconds auto_remove_delay) then ret false
        else
          vacant ← call (q_find_template ("vacant-" +:+ position_type));
          if bool_decide (is_Some vacant) then
            stamp_last_approve position_type;;
            ret false
          else
            position ← call (q_find_template position_type);
            ret (bool_decide (is_Some position))
  end.

Fixpoint remove_scan (title_cfg : gmap string Z) (types : list string)
    (positions_to_remove : list string) : M S (list string) :=
  match types with
  | [] => ret positions_to_remove
  | position_type :: rest =>
      due ← remove_check title_cfg position_type;
      remove_scan title_cfg rest
        (if due then positions_to_remove ++ [position_type]
         else positions_to_remove)
  end.

Definition find_positions_to_remove : M S (list string) :=
  match cfg_auto_remove CONFIG with
  | None => ret []
  | Some auto_remove_config =>
      if negb (dict_truthy auto_remove_config) then ret []
      else
        try_except
          (let title_cfg := default ∅ (title_cfg auto_remove_config) in
           if bool_decide (title_cfg = ∅) then ret []
           else remove_scan title_cfg (secretary_types ++ additionalTypes) [])
          (ret [])
  end.

End Routine.

(** ** The rest of the routine: construction, eviction, orchestration *)

(** [raise RuntimeError(...)]. *)
Definition raise_exn {S A} : M S A := fun w => (Raised, [], w).

(** [self.last_approve = d]. *)
Definition put_last_approve {S} (d : gmap string Z) : M S unit := fun w =>
  (Val (), [], World (device w) d).

Section Orchestration.

Context {S : Type}.
Variable respond : forall T, query T -> S -> res T * S.
Variable CONFIG : config.
Variable whitelist : list string.
Variable manual_deny : bool.

(** Lines 31-32: [{position: datetime.datetime.now() for position in ...}],
    the clock being read once for every position. *)
Fixpoint timers_at_construction (positions : list string) (acc : gmap string Z)
  : M S (gmap string Z) :=
  match positions with
  | [] => ret acc
  | position :: rest =>
      t ← call respond q_now;
      timers_at_construction rest (<[position := t]> acc)
  end.

(** The part of [__init__] that sets [self.last_approve]. *)
Definition init_last_approve : M S unit :=
  d ← timers_at_construction (secretary_types ++ additionalTypes) ∅;
  put_last_approve d.

(** The [try] block of [process_remove_position] and the [return True] that
    follows it. *)
Definition process_remove_position_body (name : string) : M S bool :=
  found ← call respond (q_find_and_tap_template name None);
  if negb found then ret true
  else
    call respond (q_human_delay (tap_delay (cfg_timings CONFIG)));;
    empty_list ← call respond (q_find_template "empty_list");
    (if negb (bool_decide (is_Some empty_list)) then
       stamp_last_approve respond name
     else
       appoint ← call respond (q_find_template "appoint");
       if bool_decide (is_Some appoint) then
         dismissed ← call respond (q_find_and_tap_template "dismiss" None);
         if dismissed then
           call respond (q_human_delay (tap_delay (cfg_timings CONFIG)));;
           confirmed ← call respond (q_find_and_tap_template "confirm-blue" None);
           if confirmed then
             call respond (q_human_delay (tap_delay (cfg_timings CONFIG)));;
             stamp_last_approve respond name
           else ret ()
         else ret ()
       else stamp_last_approve respond name);;
    anchored ← exit_to_secretary_menu respond CONFIG;
    if negb anchored then ret false else ret true.

Definition process_remove_position (name : string) : M S bool :=
  try_except (process_remove_position_body name)
    (anchored ← exit_to_secretary_menu respond CONFIG;
     if negb anchored then ret false else ret true).

(** Lines 449-453: the loop over [positions_to_remove]. *)
Fixpoint remove_each (positions_to_remove : list string) : M S bool :=
  match positions_to_remove with
  | [] => ret true
  | position_type :: rest =>
      ok ← process_remove_position position_type;
      if negb ok then ret false else remove_each rest
  end.

Definition process_all_auto_remove_positions : M S bool :=
  positions_to_remove ← find_positions_to_remove respond CONFIG;
  remove_each positions_to_remove.

(** Lines 482-485: the loop over [positions_to_process]. *)
Fixpoint process_each (fuel : nat) (positions_to_process : list string)
  : M S bool :=
  match positions_to_process with
  | [] => ret true
  | name :: rest =>
      ok ← process_secretary_position respond CONFIG whitelist manual_deny fuel name;
      if negb ok then ret false else process_each fuel rest
  end.

Definition process_all_secretary_positions (fuel : nat) : M S bool :=
  positions_to_process ← find_positions_with_applicants respond CONFIG;
  match positions_to_process with
  | [] =>
      match secretary_types with
      | [] => raise_exn
      | first_type :: _ =>
          found ← call respond (q_find_and_tap_template first_type None);
          if negb found then raise_exn
          else
            call respond (q_human_delay (tap_delay (cfg_timings CONFIG)));;
            listed ← call respond (q_find_template "list");
            if negb (bool_decide (is_Some listed)) then raise_exn else ret true
      end
  | _ => process_each fuel positions_to_process
  end.

End Orchestration.

(** ** Properties of runs *)

(** A property of a run: the world before, the transcript, the world after. *)
Definition run_property (S : Type) : Type :=
  world S -> list event -> world S -> Prop.

(** Every run of the computation has the property. *)
Definition keeps {S A} (P : run_property S) (m : M S A) : Prop :=
  forall w, P w (m w).1.2 (m w).2.

(** The transcript holds none of the events that [f] reads. *)
Definition silent {S X} (f : event -> list X) : run_property S :=
  fun _ evs _ => evs ≫= f = [].

(** No timer is written. *)
Definition timers_kept {S} : run_property S :=
  fun w _ w' => last_approve w' = last_approve w.

(** Only the timer of [name] is written, and only with the clock reading
    taken last. *)
Definition stamps {S} (name : string) : run_property S :=
  fun w evs w' =>
    (forall q, q <> name -> last_approve w' !! q = last_approve w !! q)
    /\ match last (clock_readings evs) with
       | Some t => last_approve w' !! name = Some t
       | None => last_approve w' = last_approve w
       end.

(** The last anchor check of the transcript saw the anchor. *)
Definition anchored (evs : list event) : Prop :=
  exists c, last (anchor_checks evs) = Some (Ok (Some c)).

(** Calls of [find_and_tap_template] for [name] that answered [True]. *)
Definition done_template_tap_of (name : string) (e : event) : list unit :=
  match e with
  | @Ev T q r =>
      match q in query T return res T -> list unit with
      | q_find_and_tap_template n _ => fun r =>
          match r with
          | Ok true => if decide (n = name) then [()] else []
          | _ => []
          end
      | _ => fun _ => []
      end r
  end.
Definition done_template_taps (name : string) (evs : list event) : nat :=
  length (evs ≫= done_template_tap_of name).

(** The order of [sorted(..., key=lambda x: (x[1], x[0]))]. *)
Definition yx_le (a b : coord) : Prop :=
  a.2 < b.2 \/ (a.2 = b.2 /\ a.1 <= b.1).

(** The tail of both position methods: [if not self.exit_to_secretary_menu():
    return False] followed by [return True]. *)
Definition recover {S} (respond : forall T, query T -> S -> res T * S)
    (CONFIG : config) : M S bool :=
  anchored ← exit_to_secretary_menu respond CONFIG;
  if negb anchored then ret false else ret true.

(** Properties of runs that hold of the empty run and of two runs in
    sequence once they hold of each. *)
Class Composes {S} (P : run_property S) : Prop := {
  composes_nil w : P w [] w;
  composes_app w evs1 w1 evs2 w2 :
    P w evs1 w1 -> P w1 evs2 w2 -> P w (evs1 ++ evs2) w2
}.

(** The computation never runs out of fuel. *)
Definition returns {S A} (m : M S A) : Prop :=
  forall w, (m w).1.1 <> OutOfFuel.

(** The transcript holds at most [k] of the events that [f] reads. *)
Definition at_most {S X} (f : event -> list X) (k : nat) : run_property S :=
  fun _ evs _ => (length (evs ≫= f) <= k)%nat.

(** The timer of [q] is not written. *)
Definition timer_kept {S} (q : string) : run_property S :=
  fun w _ w' => last_approve w' !! q = last_approve w !! q.

(** No timer is deleted. *)
Definition timers_persist {S} : run_property S :=
  fun w _ w' =>
    forall p, is_Some (last_approve w !! p) -> is_Some (last_approve w' !! p).

(** The timer of [p] is written only in a run that saw the vacancy marker
    of [p]. *)
Definition vacancy_resets {S} (p : string) : run_property S :=
  fun w evs w' =>
    last_approve w' !! p = last_approve w !! p
    \/ exists c, Ok (Some c) ∈ template_lookups ("vacant-" +:+ p) evs.

(** Every call of the run is a template scan for one of [names]. *)
Definition scans_only {S} (names : list string) : run_property S :=
  fun _ evs _ =>
    Forall (fun e => exists n r, e = Ev (q_find_all_templates n) r /\ n ∈ names)
      evs.

(** What a run that ends in the recovery returns: [True] exactly when the
    last anchor check saw the anchor, with at least one check made; nothing
    was checked when it raised. *)
Definition recovered_run (out : outcome bool) (evs : list event) : Prop :=
  match out with
  | Val b => (b = true <-> anchored evs) /\ anchor_checks evs <> []
  | Raised => anchor_checks evs = []
  | OutOfFuel => True
  end.

Definition recovered {S} (m : M S bool) : Prop :=
  forall w, recovered_run (m w).1.1 (m w).1.2.

(** What a method returns whose first call is [first]: [True] exactly when
    that call was its only one or it ends anchored. *)
Definition ends_anchored (first : event) (out : outcome bool) (evs : list event)
  : Prop :=
  match out with
  | Val b => b = true <-> (evs = [first] \/ anchored evs)
  | Raised => anchor_checks evs = []
  | OutOfFuel => True
  end.

(** What [process_remove_position] does after tapping the position, [tail]
    being its transcript from there on: the templates it taps, what it saw
    before tapping them, and when it reads the clock. *)
Definition removal_guarded (tail : list event) : Prop :=
  (template_taps tail = [] \/ template_taps tail = ["dismiss"]
   \/ template_taps tail = ["dismiss"; "confirm-blue"])
  /\ (template_taps tail <> [] ->
      exists c c', template_lookups "empty_list" tail = [Ok (Some c)]
                   /\ template_lookups "appoint" tail = [Ok (Some c')])
  /\ (template_taps tail = ["dismiss"; "confirm-blue"] ->
      done_template_taps "dismiss" tail = 1%nat)
  /\ (clock_readings tail <> [] ->
      template_lookups "empty_list" tail = [Ok None]
      \/ template_lookups "appoint" tail = [Ok None]
      \/ done_template_taps "confirm-blue" tail = 1%nat).

(** The transcript holds no tap, no template tap, no template lookup and no
    clock reading. *)
Definition quiet (evs : list event) : Prop :=
  template_taps evs = [] /\ (forall n, template_lookups n evs = [])
  /\ clock_readings evs = [] /\ (forall n, done_template_taps n evs = 0%nat)
  /\ taps evs = [].

(** How [process_remove_position] ends, [r] being the answer of its first
    tap and [tail] the rest of its transcript: a failed first tap ends it at
    once with [True]; otherwise it ends in the recovery. *)
Definition removal_ends (out : outcome bool) (r : res bool) (tail : list event)
  : Prop :=
  match out with
  | Val b => (b = true /\ tail = [] /\ r = Ok false) \/ recovered_run (Val b) tail
  | Raised => anchor_checks tail = [] /\ r <> Ok false
  | OutOfFuel => False
  end.

(** ** A mock game

    A small scripted game used to run the routine on concrete inputs: a queue
    of applicants shown as rows of accept and reject controls, a stack of
    screens above the secretary menu, and a clock that every call advances. *)
Module Mock.

(** What stays fixed during a run. *)
Record scenario : Type := {
  layout : string -> list coord;      (* other find_all_templates answers *)
  visible : string -> option coord;   (* find_template answers *)
  reject_dy : Z;            (* vertical offset of a row's reject control *)
  confirm_found : bool;     (* find_and_tap_template("confirm") succeeds *)
  tap_raises : bool         (* humanized_tap raises *)
}.

Record game : Type := Game {
  queue : list string;   (* alliance tags of the applicants, topmost first *)
  clock : Z;
  depth : nat            (* back-navigations needed to see the anchor *)
}.

Definition accept_at (i : nat) : coord := (900, 400 + 150 * Z.of_nat i).
Definition reject_at (sc : scenario) (i : nat) : coord :=
  (700, 400 + 150 * Z.of_nat i + reject_dy sc).

Definition tick (g : game) : game := Game (queue g) (clock g + 1000) (depth g).

Definition respond (sc : scenario) (T : Type) (q : query T) (g : game)
  : res T * game :=
  match q in query T return res T * game with
  | q_find_template name => (Ok (visible sc name), tick g)
  | q_find_all_templates name =>
      (Ok (if decide (name = "accept") then
             imap (fun i _ => accept_at i) (queue g)
           else if decide (name = "reject") then
             imap (fun i _ => reject_at sc i) (queue g)
           else layout sc name),
       tick g)
  | q_find_and_tap_template name _ =>
      if decide (name = "confirm") then
        if confirm_found sc
        then (Ok true, Game (tail (queue g)) (clock g + 1000) (depth g))
        else (Ok false, tick g)
      else (Ok true, Game (queue g) (clock g + 1000) (Datatypes.S (depth g)))
  | q_wait_for_image _ _ =>
      (Ok (match depth g with O => Some (540, 120) | _ => None end), tick g)
  | q_take_screenshot => (Ok true, tick g)
  | q_imread _ => (Ok (Some 0%N), tick g)
  | q_get_text_regions _ img => (Ok (1%N, 2%N, img), tick g)
  | q_extract_text_from_region _ _ _ =>
      (Ok (hd "" (queue g), hd "" (queue g)), tick g)
  | q_humanized_tap c =>
      if tap_raises sc then (Exn, tick g)
      else if decide (c = accept_at 0)
      then (Ok (), Game (tail (queue g)) (clock g + 1000) (depth g))
      else (Ok (), tick g)
  | q_press_back => (Ok (), Game (queue g) (clock g + 1000) (pred (depth g)))
  | q_human_delay d => (Ok (), Game (queue g) (clock g + d) (depth g))
  | q_handle_swipes _ _ => (Ok (), tick g)
  | q_log_rejected_alliance _ _ => (Ok (), tick g)
  | q_play_beep => (Ok (), tick g)
  | q_input _ => (Ok "", tick g)
  | q_now => (Ok (clock g), tick g)
  end.

Definition plain : scenario := {|
  layout := fun _ => [];
  visible := fun _ => None;
  reject_dy := 0;
  confirm_found := true;
  tap_raises := false
|}.

Definition CONFIG : config := {|
  cfg_timings := {| tap_delay := 500000; menu_animation := 1500000;
                    settle_time := 1000000; list_timeout := 5000000 |};
  cfg_auto_remove := None;
  cfg_applicant_offset := None
|}.

(** The confirm control never shows. *)
Definition stuck : scenario := {|
  layout := fun _ => [];
  visible := fun _ => None;
  reject_dy := 0;
  confirm_found := false;
  tap_raises := false
|}.

(** The reject control of every row sits 11 px below its accept control. *)
Definition misaligned : scenario := {|
  layout := fun _ => [];
  visible := fun _ => None;
  reject_dy := 11;
  confirm_found := true;
  tap_raises := false
|}.

(** Every tap raises. *)
Definition raising : scenario := {|
  layout := fun _ => [];
  visible := fun _ => None;
  reject_dy := 0;
  confirm_found := true;
  tap_raises := true
|}.

(** The secretary menu with the icons of two positions and one badge, at the
    edge of the default offset box of the first icon; the military position is
    held, not vacant. *)
Definition menu : scenario := {|
  layout := fun name =>
    if decide (name = "science") then [(200, 500)]
    else if decide (name = "military") then [(200, 900)]
    else if decide (name = "has_applicant") then [(350, 550)]
    else [];
  visible := fun name =>
    if decide (name = "military") then Some (200, 900) else None;
  reject_dy := 0;
  confirm_found := true;
  tap_raises := false
|}.

(** The same menu with the badge one pixel further to the right. *)
Definition menu_badge_off : scenario := {|
  layout := fun name =>
    if decide (name = "science") then [(200, 500)]
    else if decide (name = "military") then [(200, 900)]
    else if decide (name = "has_applicant") then [(351, 550)]
    else [];
  visible := fun name =>
    if decide (name = "military") then Some (200, 900) else None;
  reject_dy := 0;
  confirm_found := true;
  tap_raises := false
|}.

(** The screen of a held position with an empty queue: the empty-list and
    appoint indicators show, and so does the icon of the military position. *)
Definition held : scenario := {|
  layout := fun _ => [];
  visible := fun name =>
    if decide (name = "military") then Some (200, 900)
    else if decide (name = "empty_list") then Some (540, 600)
    else if decide (name = "appoint") then Some (540, 1500)
    else None;
  reject_dy := 0;
  confirm_found := true;
  tap_raises := false
|}.

(** Eviction after 300 s for the military position; a delay of 0 for the
    science position. *)
Definition delays : gmap string Z := {[ "military" := 300; "science" := 0 ]}.

Definition auto_remove : auto_remove_cfg :=
  {| active := Some true; title_cfg := Some delays |}.

Definition CONFIG_auto_remove : config := {|
  cfg_timings := cfg_timings CONFIG;
  cfg_auto_remove := Some auto_remove;
  cfg_applicant_offset := None
|}.

(** All seven timers start at the time of construction. *)
Definition last_approve_at (t : Z) : gmap string Z :=
  list_to_map ((fun p => (p, t)) <$> secretary_types ++ additionalTypes).

(** A routine constructed at time 0, looking at a game whose clock reads [t],
    with the applicants [q] queued and [d] screens above the menu. *)
Definition start (q : list string) (t : Z) (d : nat) : world game :=
  World (Game q t d) (last_approve_at 0).

End Mock.

(** ** Recovery: [exit_to_secretary_menu] *)

(** Calls that raised. *)
Definition exn_of (e : event) : list unit :=
  match e with
  | Ev _ Exn => [()]
  | Ev _ (Ok _) => []
  end.
Definition raises (evs : list event) : nat := length (evs ≫= exn_of).

(** The transcript of an attempt that does not see the anchor. *)
Definition failed_attempt (cfg : config) : list event :=
  [Ev (q_wait_for_image "president" (menu_animation (cfg_timings cfg))) (Ok None);
   Ev q_press_back (Ok ());
   Ev (q_human_delay (menu_animation (cfg_timings cfg))) (Ok ())].

Fixpoint failed_attempts (cfg : config) (k : nat) : list event :=
  match k with
  | O => []
  | Datatypes.S k' => failed_attempt cfg ++ failed_attempts cfg k'
  end.

(** The transcript of the attempt that sees the anchor at [c]. *)
Definition anchored_at (cfg : config) (c : coord) : list event :=
  [Ev (q_wait_for_image "president" (menu_animation (cfg_timings cfg)))
      (Ok (Some c))].

(** * Properties *)

(** ** The order of matches *)

Lemma yx_leb_total a b : yx_leb a b = false -> yx_leb b a = true.
Proof.
  unfold yx_leb. destruct a as [ax ay], b as [bx b_y]; cbn. intros H.
  apply orb_false_iff in H as [H1 H2]. apply Z.ltb_ge in H1.
  apply andb_false_iff in H2. apply orb_true_iff.
  destruct (Z.ltb_spec b_y ay); [by left|right].
  apply andb_true_iff. split; [apply Z.eqb_eq; lia|].
  destruct H2 as [H2|H2]; [apply Z.eqb_neq in H2; lia|].
  apply Z.leb_gt in H2. apply Z.leb_le. lia.
Qed.

Lemma yx_leb_trans a b c : yx_leb a b = true -> yx_leb b c = true -> yx_leb a c = true.
Proof.
  unfold yx_leb. destruct a as [ax ay], b as [bx b_y], c as [cx cy]; cbn.
  rewrite !orb_true_iff, !andb_true_iff, !Z.ltb_lt, !Z.eqb_eq, !Z.leb_le. lia.
Qed.

Lemma yx_leb_refl a : yx_leb a a = true.
Proof.
  unfold yx_leb. rewrite orb_true_iff, andb_true_iff, Z.ltb_lt, Z.eqb_eq, Z.leb_le. lia.
Qed.

Lemma head_insert_yx a l :
  head (insert_yx a l)
  = Some (match head l with
          | None => a
          | Some b => if yx_leb a b then a else b
          end).
Proof. destruct l as [|b l]; cbn; [done|]. by destruct (yx_leb a b). Qed.

Lemma elem_of_insert_yx a l x : x ∈ insert_yx a l <-> x = a \/ x ∈ l.
Proof.
  induction l as [|b l IH]; cbn.
  - by rewrite elem_of_cons.
  - destruct (yx_leb a b); rewrite !elem_of_cons; [done|]. rewrite IH. tauto.
Qed.

Lemma elem_of_sorted_yx l x : x ∈ sorted_yx l <-> x ∈ l.
Proof.
  induction l as [|a l IH]; [done|].
  change (sorted_yx (a :: l)) with (insert_yx a (sorted_yx l)).
  by rewrite elem_of_insert_yx, elem_of_cons, IH.
Qed.

Lemma sorted_yx_head_topmost ms rb :
  head (sorted_yx ms) = Some rb ->
  rb ∈ ms /\ forall m, m ∈ ms -> yx_leb rb m = true.
Proof.
  revert rb. induction ms as [|a ms IH]; intros rb; [done|].
  change (sorted_yx (a :: ms)) with (insert_yx a (sorted_yx ms)).
  rewrite head_insert_yx. intros [= <-].
  destruct (head (sorted_yx ms)) as [b|] eqn:Hb.
  - destruct (IH b eq_refl) as [Hin Hmin].
    destruct (yx_leb a b) eqn:Hab.
    + split; [apply elem_of_cons; by left|].
      intros m [->|Hm]%elem_of_cons.
      * apply yx_leb_refl.
      * eapply yx_leb_trans; eauto.
    + split; [apply elem_of_cons; by right|].
      intros m [->|Hm]%elem_of_cons.
      * by apply yx_leb_total.
      * auto.
  - destruct ms as [|c ms]; [|exfalso].
    + split; [apply elem_of_cons; by left|].
      intros m ->%list_elem_of_singleton. apply yx_leb_refl.
    + assert (c ∈ sorted_yx (c :: ms)) as Hc.
      { apply elem_of_sorted_yx, elem_of_cons. by left. }
      destruct (sorted_yx (c :: ms)); [by apply elem_of_nil in Hc|done].
Qed.

(** ** Counting in transcripts *)

Lemma taps_app evs1 evs2 :
  taps (evs1 ++ evs2) = taps evs1 ++ taps evs2.
Proof. apply bind_app. Qed.

Lemma taps_cons e evs :
  taps (e :: evs) = tap_of e ++ taps evs.
Proof. done. Qed.

Lemma taps_nil : taps [] = [].
Proof. done. Qed.

Lemma template_taps_app evs1 evs2 :
  template_taps (evs1 ++ evs2) = template_taps evs1 ++ template_taps evs2.
Proof. apply bind_app. Qed.

Lemma template_taps_cons e evs :
  template_taps (e :: evs) = template_tap_of e ++ template_taps evs.
Proof. done. Qed.

Lemma template_taps_nil : template_taps [] = [].
Proof. done. Qed.

Lemma template_matches_app n evs1 evs2 :
  template_matches n (evs1 ++ evs2) = template_matches n evs1 ++ template_matches n evs2.
Proof. apply bind_app. Qed.

Lemma template_matches_cons n e evs :
  template_matches n (e :: evs) = matches_of n e ++ template_matches n evs.
Proof. done. Qed.

Lemma template_matches_nil n : template_matches n [] = [].
Proof. done. Qed.

Lemma template_lookups_app n evs1 evs2 :
  template_lookups n (evs1 ++ evs2) = template_lookups n evs1 ++ template_lookups n evs2.
Proof. apply bind_app. Qed.

Lemma template_lookups_cons n e evs :
  template_lookups n (e :: evs) = lookup_of n e ++ template_lookups n evs.
Proof. done. Qed.

Lemma template_lookups_nil n : template_lookups n [] = [].
Proof. done. Qed.

Lemma rejections_logged_app evs1 evs2 :
  rejections_logged (evs1 ++ evs2) = rejections_logged evs1 ++ rejections_logged evs2.
Proof. apply bind_app. Qed.

Lemma rejections_logged_cons e evs :
  rejections_logged (e :: evs) = rejection_of e ++ rejections_logged evs.
Proof. done. Qed.

Lemma rejections_logged_nil : rejections_logged [] = [].
Proof. done. Qed.

Lemma extracted_app evs1 evs2 :
  extracted (evs1 ++ evs2) = extracted evs1 ++ extracted evs2.
Proof. apply bind_app. Qed.

Lemma extracted_cons e evs :
  extracted (e :: evs) = extracted_of e ++ extracted evs.
Proof. done. Qed.

Lemma extracted_nil : extracted [] = [].
Proof. done. Qed.

Lemma clock_readings_app evs1 evs2 :
  clock_readings (evs1 ++ evs2) = clock_readings evs1 ++ clock_readings evs2.
Proof. apply bind_app. Qed.

Lemma clock_readings_cons e evs :
  clock_readings (e :: evs) = reading_of e ++ clock_readings evs.
Proof. done. Qed.

Lemma clock_readings_nil : clock_readings [] = [].
Proof. done. Qed.

Lemma anchor_checks_cons e evs :
  anchor_checks (e :: evs) = wait_of e ++ anchor_checks evs.
Proof. done. Qed.

Lemma anchor_checks_nil : anchor_checks [] = [].
Proof. done. Qed.

Create Rewrite HintDb transcript.
#[local] Hint Rewrite taps_app taps_cons taps_nil template_taps_app template_taps_cons template_taps_nil template_matches_app template_matches_cons template_matches_nil template_lookups_app template_lookups_cons template_lookups_nil rejections_logged_app rejections_logged_cons rejections_logged_nil extracted_app extracted_cons extracted_nil clock_readings_app clock_readings_cons clock_readings_nil anchor_checks_cons anchor_checks_nil : transcript.


(** Evaluates the readings of a transcript given by its events. *)
Ltac transcript :=
  autorewrite with transcript; cbn;
  repeat match goal with
         | H : _ = _ |- _ => rewrite H
         end;
  cbn; try done.

Lemma backs_app evs1 evs2 : backs (evs1 ++ evs2) = (backs evs1 + backs evs2)%nat.
Proof. unfold backs. by rewrite bind_app, length_app. Qed.

Lemma anchor_checks_app evs1 evs2 :
  anchor_checks (evs1 ++ evs2) = anchor_checks evs1 ++ anchor_checks evs2.
Proof. unfold anchor_checks. by rewrite bind_app. Qed.

Lemma raises_app evs1 evs2 : raises (evs1 ++ evs2) = (raises evs1 + raises evs2)%nat.
Proof. unfold raises. by rewrite bind_app, length_app. Qed.

Lemma screenshots_app evs1 evs2 :
  screenshots (evs1 ++ evs2) = (screenshots evs1 + screenshots evs2)%nat.
Proof. unfold screenshots. by rewrite bind_app, length_app. Qed.

Lemma failed_template_taps_app n evs1 evs2 :
  failed_template_taps n (evs1 ++ evs2)
  = (failed_template_taps n evs1 + failed_template_taps n evs2)%nat.
Proof. unfold failed_template_taps. by rewrite bind_app, length_app. Qed.

Lemma backs_failed_attempts cfg k : backs (failed_attempts cfg k) = k.
Proof.
  induction k as [|k IH]; [done|].
  cbn [failed_attempts]. rewrite backs_app, IH. done.
Qed.

Lemma anchor_checks_failed_attempts cfg k :
  anchor_checks (failed_attempts cfg k) = replicate k (Ok None).
Proof.
  induction k as [|k IH]; [done|].
  cbn [failed_attempts]. rewrite anchor_checks_app, IH. done.
Qed.

Lemma raises_failed_attempts cfg k : raises (failed_attempts cfg k) = O.
Proof.
  induction k as [|k IH]; [done|].
  cbn [failed_attempts]. rewrite raises_app, IH. done.
Qed.

Section Recovery.

Context {S : Type}.
Variable respond : forall T, query T -> S -> res T * S.
Variable CONFIG : config.

(** Every run of the loop of [n] attempts is of one of three shapes: [k < n]
    failed attempts and then the anchor; [n] failed attempts; or some failed
    attempts and then an attempt in which a collaborator raised. *)
Lemma exit_attempts_run (n : nat) (w : world S) :
  exists o evs w',
    exit_attempts respond CONFIG n w = (o, evs, w')
    /\ last_approve w' = last_approve w
    /\ ((exists k c, (k < n)%nat /\ o = Val true
           /\ evs = failed_attempts CONFIG k ++ anchored_at CONFIG c)
        \/ (o = Val false /\ evs = failed_attempts CONFIG n)
        \/ (o = Raised /\ (0 < raises evs)%nat
            /\ (backs evs <= n)%nat /\ (length (anchor_checks evs) <= n)%nat)).
Proof.
  revert w. induction n as [|n IH]; intros w.
  { eexists _, _, _. split; [reflexivity|]. split; [done|]. right; left. done. }
  cbn [exit_attempts]. unfold verify_secretary_menu, bind, call, ret.
  destruct (respond _ (q_wait_for_image _ _) (device w)) as [[[c|]|] s1]; cbn.
  - eexists _, _, _. split; [reflexivity|]. split; [done|].
    left. exists O, c. split; [lia|]. done.
  - destruct (respond _ q_press_back s1) as [[[]|] s2]; cbn.
    + destruct (respond _ (q_human_delay _) s2) as [[[]|] s3]; cbn.
      * destruct (IH (World s3 (last_approve w)))
          as (o & evs & w' & -> & Hla & Hshape).
        eexists _, _, _. split; [reflexivity|]. split; [done|].
        destruct Hshape as [(k & c & Hk & -> & ->)|[[-> ->]|(-> & Hr & Hb & Hc)]].
        -- left. exists (Datatypes.S k), c. split; [lia|]. done.
        -- right; left. done.
        -- right; right. split; [done|].
           change (?a :: ?b :: ?c :: evs) with ([a; b; c] ++ evs).
           rewrite raises_app, backs_app, anchor_checks_app, length_app.
           cbn. repeat split; lia.
      * eexists _, _, _. split; [reflexivity|]. split; [done|].
        right; right. cbn. repeat split; lia.
    + eexists _, _, _. split; [reflexivity|]. split; [done|].
      right; right. cbn. repeat split; lia.
  - eexists _, _, _. split; [reflexivity|]. split; [done|].
    right; right. cbn. repeat split; lia.
Qed.

Lemma exit_to_secretary_menu_returns w :
  exists b evs w',
    exit_to_secretary_menu respond CONFIG w = (Val b, evs, w')
    /\ last_approve w' = last_approve w
    /\ (length (anchor_checks evs) <= 10)%nat
    /\ (backs evs <= 10)%nat.
Proof.
  unfold exit_to_secretary_menu, try_except, max_attempts.
  destruct (exit_attempts_run 10 w) as (o & evs & w' & -> & Hla & Hshape).
  destruct Hshape as [(k & c & Hk & -> & ->)|[[-> ->]|(-> & Hr & Hb & Hc)]].
  - eexists _, _, _. split; [reflexivity|]. split; [done|].
    rewrite anchor_checks_app, length_app, backs_app,
      anchor_checks_failed_attempts, backs_failed_attempts, length_replicate.
    cbn. lia.
  - eexists _, _, _. split; [reflexivity|]. split; [done|].
    rewrite anchor_checks_failed_attempts, backs_failed_attempts, length_replicate.
    lia.
  - eexists _, _, _. split; [reflexivity|]. split; [done|].
    rewrite app_nil_r. lia.
Qed.

(** C2, amended: [exit_to_secretary_menu] always returns.  When the first
    anchor check succeeds it returns [True] at once, with no back-navigation.
    In general it returns [True] exactly when one of its ten anchor checks
    succeeds: after [k <= 9] failed attempts, hence after exactly [k]
    back-navigations.  When all ten checks fail it returns [False] after
    exactly ten checks and ten back-navigations; an anchor that shows only
    after the tenth back-navigation is not looked at.  Otherwise a collaborator
    raised and it returns [False] within the same bounds. *)
Theorem exit_to_secretary_menu_attempts (w : world S) :
  (forall c s,
      respond _ (q_wait_for_image "president" (menu_animation (cfg_timings CONFIG)))
        (device w) = (Ok (Some c), s) ->
      exit_to_secretary_menu respond CONFIG w
      = (Val true, anchored_at CONFIG c, World s (last_approve w)))
  /\ exists b evs w',
      exit_to_secretary_menu respond CONFIG w = (Val b, evs, w')
      /\ last_approve w' = last_approve w
      /\ ((exists k c, (k <= 9)%nat /\ b = true
             /\ evs = failed_attempts CONFIG k ++ anchored_at CONFIG c
             /\ backs evs = k)
          \/ (b = false /\ evs = failed_attempts CONFIG 10
              /\ backs evs = 10%nat /\ length (anchor_checks evs) = 10%nat)
          \/ (b = false /\ (0 < raises evs)%nat
              /\ (backs evs <= 10)%nat
              /\ (length (anchor_checks evs) <= 10)%nat)).
Proof.
  split.
  { intros c s Hfirst.
    unfold exit_to_secretary_menu, try_except, max_attempts.
    cbn [exit_attempts]. unfold verify_secretary_menu, bind, call, ret.
    by rewrite Hfirst. }
  unfold exit_to_secretary_menu, try_except, max_attempts.
  destruct (exit_attempts_run 10 w) as (o & evs & w' & -> & Hla & Hshape).
  destruct Hshape as [(k & c & Hk & -> & ->)|[[-> ->]|(-> & Hr & Hb & Hc)]].
  - eexists _, _, _. split; [reflexivity|]. split; [done|].
    left. exists k, c. split; [lia|]. split; [done|]. split; [done|].
    rewrite backs_app, backs_failed_attempts. cbn. lia.
  - eexists _, _, _. split; [reflexivity|]. split; [done|].
    right; left. split; [done|]. split; [done|].
    by rewrite backs_failed_attempts, anchor_checks_failed_attempts.
  - cbn. eexists _, _, _. split; [reflexivity|]. split; [done|].
    right; right. rewrite app_nil_r. done.
Qed.

End Recovery.

(** C2, as stated, fails at [k = 10]: in a game whose anchor shows after ten
    back-navigations, all ten checks fail, ten back-navigations are made, the
    result is [False], and the anchor is on screen when the routine gives up. *)
Lemma recovery_gives_up_at_ten_backs :
  exists evs g,
    exit_to_secretary_menu (Mock.respond Mock.plain) Mock.CONFIG
      (World (Mock.Game [] 0 10) ∅)
    = (Val false, evs, World g ∅)
    /\ anchor_checks evs = replicate 10 (Ok None)
    /\ backs evs = 10%nat
    /\ (Mock.respond Mock.plain _ (q_wait_for_image "president" 1500000) g).1
       = Ok (Some (540, 120)).
Proof. eexists _, _. split; [vm_compute; reflexivity|]. by vm_compute. Qed.

(** Splits a run on the answers of the device. *)
Ltac run :=
  repeat (cbn -[Z.abs Z.leb sorted_yx] in *;
    match goal with
    | |- context [match ?x with (_, _) => _ end] =>
        lazymatch type of x with
        | (res _ * _)%type => destruct x as [[?|] ?] eqn:?
        end
    | |- context [match ?x with (_, _) => _ end] => is_var x; destruct x
    | x : unit |- _ => destruct x
    | |- context [if ?b then _ else _] => destruct b eqn:?
    | |- context [match ?x with [] => _ | _ :: _ => _ end] => destruct x eqn:?
    | |- context [match ?x with _ => _ end] => is_var x; destruct x
    end).

(** ** The admission loop *)

Section Admission.

Context {S : Type}.
Variable respond : forall T, query T -> S -> res T * S.
Variable CONFIG : config.
Variable whitelist : list string.
Variable manual_deny : bool.

Lemma find_reject_buttons_run w :
  exists r s,
    respond _ (q_find_all_templates "reject") (device w) = (r, s)
    /\ find_reject_buttons respond w
       = (Val (match r with Ok ms => sorted_yx ms | Exn => [] end),
          [Ev (q_find_all_templates "reject") r],
          World s (last_approve w)).
Proof.
  unfold find_reject_buttons, try_except, bind, call, ret.
  destruct (respond _ _ _) as [[[|m ms]|] s]; eexists _, _; (split; [done|]); done.
Qed.

Lemma resolve_reject_run name top rbs w :
  exists out evs w',
    resolve_reject respond name top rbs w = (out, evs, w')
    /\ template_matches "reject" evs = []
    /\ rejections_logged evs = []
    /\ match rbs with
       | [] => taps evs = [] /\ template_taps evs = ["confirm"]
       | rb :: _ =>
           if bool_decide (Z.abs (rb.2 - top.2) <= 10) then
             taps evs = [rb] /\ (template_taps evs = ["confirm"] \/ out = Raised)
           else out = Val (Counted 0) /\ evs = [] /\ w' = w
       end.
Proof.
  unfold resolve_reject, stamp_last_approve, set_last_approve, bind, call, ret.
  destruct rbs as [|rb rbs'].
  - run; eexists _, _, _; (split; [reflexivity|]); auto.
  - case_bool_decide as Hd.
    + rewrite (proj2 (Z.leb_le _ _) Hd).
      run; eexists _, _, _; (split; [reflexivity|]); auto.
    + destruct (Z.leb_spec (Z.abs (rb.2 - top.2)) 10); [lia|].
      eexists _, _, _; (split; [reflexivity|]). cbn. by destruct w.
Qed.

Lemma reject_candidate_run name top a o w :
  exists out evs w',
    reject_candidate respond manual_deny name top a o w = (out, evs, w')
    /\ exists pre,
        taps pre = [] /\ template_taps pre = []
        /\ template_matches "reject" pre = []
        /\ rejections_logged pre = [(a, o)]
        /\ ((out = Raised /\ evs = pre /\ last_approve w' = last_approve w)
            \/ (exists r s evs2,
                  resolve_reject respond name top
                    (match r with Ok ms => sorted_yx ms | Exn => [] end)
                    (World s (last_approve w)) = (out, evs2, w')
                  /\ evs = pre ++ [Ev (q_find_all_templates "reject") r] ++ evs2)).
Proof.
  unfold reject_candidate, bind, call, ret.
  destruct (respond _ (q_log_rejected_alliance a o) (device w)) as [[[]|] s1];
    cbn -[find_reject_buttons resolve_reject].
  2:{ eexists _, _, _. split; [reflexivity|]. eexists. do 4 (split; [shelve|]).
      left. done. Unshelve. all: done. }
  assert (exists pre1 s2,
             taps pre1 = [] /\ template_taps pre1 = []
             /\ template_matches "reject" pre1 = [] /\ rejections_logged pre1 = []
             /\ ((if manual_deny
                  then call respond q_play_beep;;
                       call respond (q_input "Press Enter to continue...");; ret ()
                  else ret ()) (World s1 (last_approve w))
                 = (Val (), pre1, World s2 (last_approve w))
                 \/ (if manual_deny
                     then call respond q_play_beep;;
                          call respond (q_input "Press Enter to continue...");;
                          ret ()
                     else ret ()) (World s1 (last_approve w))
                    = (Raised, pre1, World s2 (last_approve w))))
    as (pre1 & s2 & Ht & Htt & Hm & Hl & Hrun).
  { unfold bind, call, ret.
    destruct manual_deny; run; eexists _, _;
      (do 4 (split; [shelve|]));
      (first [left; reflexivity | right; reflexivity]).
    Unshelve. all: done. }
  unfold bind, call, ret in Hrun.
  destruct Hrun as [Hrun|Hrun]; rewrite Hrun; cbn -[find_reject_buttons resolve_reject].
  2:{ eexists _, _, _. split; [reflexivity|].
      exists (Ev (q_log_rejected_alliance a o) (Ok ()) :: pre1).
      do 4 (split; [by transcript|]). left. done. }
  destruct (find_reject_buttons_run (World s2 (last_approve w)))
    as (r & s & _ & Hf).
  rewrite Hf; cbn -[resolve_reject].
  destruct (resolve_reject respond name top
              (match r with Ok ms => sorted_yx ms | Exn => [] end)
              (World s (last_approve w)))
    as [[out evs] w'] eqn:Hres.
  eexists _, _, _. split; [reflexivity|].
  exists (Ev (q_log_rejected_alliance a o) (Ok ()) :: pre1).
  do 4 (split; [by transcript|]). right. eexists _, _, _. split; [exact Hres|].
  done.
Qed.

Lemma reject_candidate_taps name top a o w out evs w' :
  reject_candidate respond manual_deny name top a o w = (out, evs, w') ->
  rejections_logged evs = [(a, o)]
  /\ (forall c, c ∈ taps evs ->
     exists ms, template_matches "reject" evs = [Ok ms]
       /\ head (sorted_yx ms) = Some c
       /\ Z.abs (c.2 - top.2) <= 10)
  /\ (forall ms rb, template_matches "reject" evs = [Ok ms] ->
        head (sorted_yx ms) = Some rb ->
        if bool_decide (Z.abs (rb.2 - top.2) <= 10)
        then taps evs = [rb] /\ (template_taps evs = ["confirm"] \/ out = Raised)
        else taps evs = [] /\ template_taps evs = [] /\ out = Val (Counted 0))
  /\ (template_matches "reject" evs = [Ok []]
      \/ template_matches "reject" evs = [Exn] ->
      taps evs = [] /\ template_taps evs = ["confirm"]).
Proof.
  intros Hrun.
  destruct (reject_candidate_run name top a o w)
    as (out' & evs' & w'' & Hrun' & pre & Ht & Htt & Hm & Hl & Hshape).
  rewrite Hrun in Hrun'. injection Hrun' as <- <- <-.
  destruct Hshape as [(-> & -> & _)|(r & s & evs2 & Hres & ->)].
  { rewrite Ht, Hm. split; [done|]. split; [by intros c ?%elem_of_nil|].
    split; [done|]. by intros [|]. }
  destruct (resolve_reject_run name top
              (match r with Ok ms => sorted_yx ms | Exn => [] end)
              (World s (last_approve w)))
    as (out' & evs' & w'' & Hres' & Hm2 & Hl2 & Hsel).
  rewrite Hres in Hres'. injection Hres' as <- <- <-.
  assert (template_matches "reject"
            (pre ++ [Ev (q_find_all_templates "reject") r] ++ evs2) = [r]) as Hmm
    by transcript.
  assert (taps (pre ++ [Ev (q_find_all_templates "reject") r] ++ evs2) = taps evs2)
    as Htaps by transcript.
  assert (template_taps (pre ++ [Ev (q_find_all_templates "reject") r] ++ evs2)
          = template_taps evs2) as Httaps by transcript.
  split; [by transcript|].
  rewrite Hmm, Htaps, Httaps. clear Hmm Htaps Httaps.
  split; [|split].
  - intros c Hc. destruct r as [ms|]; [|cbn in Hsel].
    + exists ms. split; [done|].
      destruct (sorted_yx ms) as [|rb rest] eqn:Hs.
      { destruct Hsel as [Hnil _]. rewrite Hnil in Hc. by apply elem_of_nil in Hc. }
      case_bool_decide as Hd.
      * destruct Hsel as [Htap _]. rewrite Htap in Hc.
        apply list_elem_of_singleton in Hc as ->. done.
      * destruct Hsel as (_ & -> & _). by apply elem_of_nil in Hc.
    + destruct Hsel as [Hnil _]. rewrite Hnil in Hc. by apply elem_of_nil in Hc.
  - intros ms rb [= ->] Hhead. destruct (sorted_yx ms) as [|rb' rest]; [done|].
    injection Hhead as ->.
    case_bool_decide; [done|]. by destruct Hsel as (-> & -> & _).
  - intros [[= ->]|[= ->]]; exact Hsel.
Qed.

(** C3, amended: on the rejection path the only reject control considered is
    the topmost one found, the first in (y, x) order.  Whatever is tapped is
    that control and lies within 10 px of the accept control vertically, so a
    control 11 px away is never tapped.  The topmost control is tapped, and the
    confirm control after it, exactly when it is aligned; when it is not,
    nothing is tapped, neither a lower reject control nor the confirm control,
    and the candidate counts as processed.  The confirm control is tapped
    directly only when no reject control is found at all. *)
Theorem reject_control_selection name top a o w out evs w' :
  reject_candidate respond manual_deny name top a o w = (out, evs, w') ->
  (forall c, c ∈ taps evs ->
     exists ms, template_matches "reject" evs = [Ok ms]
       /\ c ∈ ms /\ (forall m, m ∈ ms -> yx_leb c m = true)
       /\ Z.abs (c.2 - top.2) <= 10)
  /\ (forall ms rb, template_matches "reject" evs = [Ok ms] ->
        head (sorted_yx ms) = Some rb ->
        if bool_decide (Z.abs (rb.2 - top.2) <= 10)
        then taps evs = [rb] /\ (template_taps evs = ["confirm"] \/ out = Raised)
        else taps evs = [] /\ template_taps evs = [] /\ out = Val (Counted 0))
  /\ (template_matches "reject" evs = [Ok []]
      \/ template_matches "reject" evs = [Exn] ->
      taps evs = [] /\ template_taps evs = ["confirm"]).
Proof.
  intros Hrun.
  destruct (reject_candidate_taps _ _ _ _ _ _ _ _ Hrun) as (_ & Htap & Hsel & Hnone).
  split; [|done].
  intros c Hc. destruct (Htap c Hc) as (ms & Hm & Hhead & Hal).
  exists ms. split; [done|].
  destruct (sorted_yx_head_topmost ms c Hhead) as [Hin Hmin]. done.
Qed.

Lemma whitelist_nonempty : whitelist <> [] -> bool_decide (0 < length whitelist)%nat = true.
Proof. intros H. apply bool_decide_eq_true. destruct whitelist; [done|cbn; lia]. Qed.


(** The accept branch of the whitelist test never writes [last_approve]: it
    taps and counts, and the clock is not read. *)
Lemma whitelisted_accept_never_stamps name top img w out evs w' a o :
  whitelist <> [] ->
  process_candidate respond whitelist manual_deny name top img w = (out, evs, w') ->
  extracted evs = [(a, o)] ->
  a ∈ whitelist ->
  last_approve w' = last_approve w /\ clock_readings evs = []
  /\ (out = Val (Counted 1) \/ out = Raised).
Proof.
  intros Hwl. unfold process_candidate. rewrite (whitelist_nonempty Hwl).
  unfold bind at 1, call at 1.
  destruct (respond _ (q_get_text_regions top img) (device w))
    as [[[[ar nr] shot]|] s1]; [|by intros [= <- <- <-]].
  unfold bind at 1, call at 1. cbn [device last_approve].
  destruct (respond _ (q_extract_text_from_region ar "eng" shot) s1)
    as [[[a' o']|] s2]; [|by intros [= <- <- <-]].
  case_bool_decide as Hin.
  - unfold bind, call, ret. cbn [device last_approve].
    destruct (respond _ (q_humanized_tap top) s2) as [[[]|] s3];
      intros [= <- <- <-] _ _; (split; [done|]); (split; [done|]); auto.
  - destruct (reject_candidate respond manual_deny name top a' o'
                (World s2 (last_approve w))) as [[out2 evs2] w2].
    intros [= <- <- <-] Hex Ha.
    autorewrite with transcript in Hex. cbn in Hex. injection Hex as -> -> _.
    done.
Qed.


Lemma admission_pass_run name w :
  exists out evs w',
    admission_pass respond whitelist manual_deny name w = (out, evs, w')
    /\ screenshots evs = 1%nat
    /\ out <> OutOfFuel
    /\ (out = Val Continue -> (1 <= failed_template_taps "confirm" evs)%nat).
Proof.
  unfold admission_pass, find_accept_buttons, process_candidate, reject_candidate,
    find_reject_buttons, resolve_reject, stamp_last_approve, set_last_approve,
    try_except, bind, call, ret.
  run; eexists _, _, _; (split; [reflexivity|]); cbn; (split; [done|]);
    (split; [done|]); intros; try done; lia.
Qed.

Lemma admission_loop_bound fuel name processed accepted w :
  (processed <= 5)%nat ->
  exists out evs w',
    admission_loop respond CONFIG whitelist manual_deny fuel name processed accepted w
    = (out, evs, w')
    /\ (screenshots evs + processed <= 5 + failed_template_taps "confirm" evs)%nat
    /\ match out with
       | Val (p, _) => (p <= 5)%nat
       | Raised => True
       | OutOfFuel => (fuel + processed <= 4 + failed_template_taps "confirm" evs)%nat
       end.
Proof.
  revert processed accepted w.
  induction fuel as [|fuel IH]; intros processed accepted w Hp;
    cbn [admission_loop]; case_bool_decide as Hlt;
    try (eexists _, _, _; split; [reflexivity|]; cbn; lia).
  unfold bind at 1.
  destruct (admission_pass_run name w) as (out & evs & w1 & -> & Hs & Hnf & Hc).
  destruct out as [[| |a]| |]; [| | | |done].
  - eexists _, _, _. split; [reflexivity|].
    rewrite screenshots_app, failed_template_taps_app, Hs. cbn. lia.
  - destruct (IH processed accepted w1 Hp) as (out' & evs' & w' & -> & Hs' & Ho').
    eexists _, _, _. split; [reflexivity|].
    rewrite screenshots_app, failed_template_taps_app, Hs.
    specialize (Hc eq_refl). split; [lia|].
    destruct out' as [[p ?]| |]; [done|done|lia].
  - unfold bind at 1, call at 1.
    destruct (respond _ (q_human_delay _) (device w1)) as [[[]|] s2].
    + destruct (IH (processed + 1)%nat (accepted + a)%nat
                  (World s2 (last_approve w1)) ltac:(lia))
        as (out' & evs' & w' & -> & Hs' & Ho').
      eexists _, _, _. split; [reflexivity|].
      rewrite !screenshots_app, !failed_template_taps_app, Hs. cbn.
      split; [lia|]. destruct out' as [[p ?]| |]; [done|done|lia].
    + eexists _, _, _. split; [reflexivity|].
      rewrite !screenshots_app, !failed_template_taps_app, Hs. cbn. lia.
  - eexists _, _, _. split; [reflexivity|]. rewrite Hs. lia.
Qed.

(** C4, amended: the recovery loop makes at most 10 anchor checks and at most
    10 back-navigations and always returns.  The admission loop never counts
    more than 5 processed candidates, and it makes at most 5 passes besides
    those that end in a failed confirm tap: such a pass is repeated without
    being counted, so a loop that still has to go on after [fuel] passes has
    seen at least [fuel - 4] failed confirm taps.  There is no cap on these
    repetitions. *)
Theorem loops_are_capped (fuel : nat) (name : string) (w : world S) :
  (exists b evs w',
      exit_to_secretary_menu respond CONFIG w = (Val b, evs, w')
      /\ (length (anchor_checks evs) <= 10)%nat
      /\ (backs evs <= 10)%nat)
  /\ (exists out evs w',
        admission_loop respond CONFIG whitelist manual_deny fuel name 0 0 w
        = (out, evs, w')
        /\ (screenshots evs <= 5 + failed_template_taps "confirm" evs)%nat
        /\ match out with
           | Val (processed, _) => (processed <= 5)%nat
           | Raised => True
           | OutOfFuel => (fuel <= 4 + failed_template_taps "confirm" evs)%nat
           end).
Proof.
  split.
  - destruct (exit_to_secretary_menu_returns respond CONFIG w)
      as (b & evs & w' & ? & _ & ? & ?).
    by exists b, evs, w'.
  - destruct (admission_loop_bound fuel name 0 0 w ltac:(lia))
      as (out & evs & w' & ? & ? & Hout).
    exists out, evs, w'. split; [done|]. split; [lia|].
    destruct out as [[p ?]| |]; [done|done|lia].
Qed.

(** C9: when the [try] block of [process_secretary_position] raises, the
    handler runs [exit_to_secretary_menu], which always returns, and the
    method returns what the recovery returned: [True] when it succeeds and
    [False] only when it fails. *)
Theorem exception_leads_to_recovery fuel name w evs1 w1 :
  process_secretary_position_body respond CONFIG whitelist manual_deny fuel name w
  = (Raised, evs1, w1) ->
  exists b evs2 w2,
    exit_to_secretary_menu respond CONFIG w1 = (Val b, evs2, w2)
    /\ process_secretary_position respond CONFIG whitelist manual_deny fuel name w
       = (Val b, evs1 ++ evs2, w2).
Proof.
  intros Hbody. unfold process_secretary_position, try_except. rewrite Hbody.
  unfold bind.
  destruct (exit_to_secretary_menu_returns respond CONFIG w1) as (b & evs2 & w2 & -> & _).
  exists b, evs2, w2. split; [done|]. destruct b; cbn; by rewrite app_nil_r.
Qed.
End Admission.

Lemma stuck_pass c d la :
  exists evs c',
    admission_pass (Mock.respond Mock.stuck) ["ABC"] false "science"
      (World (Mock.Game ["XYZ"] c d) la)
    = (Val Continue, evs, World (Mock.Game ["XYZ"] c' d) la).
Proof. eexists _, _. cbn. reflexivity. Qed.

Lemma stuck_loop fuel c d la :
  exists evs w',
    admission_loop (Mock.respond Mock.stuck) Mock.CONFIG ["ABC"] false fuel "science" 0 0
      (World (Mock.Game ["XYZ"] c d) la)
    = (OutOfFuel, evs, w').
Proof.
  revert c. induction fuel as [|fuel IH]; intros c; cbn [admission_loop];
    change (bool_decide (0 < 5)%nat) with true; cbv beta iota.
  { eexists _, _. reflexivity. }
  unfold bind.
  destruct (stuck_pass c d la) as (evs & c' & ->).
  destruct (IH c') as (evs' & w' & ->).
  eexists _, _. reflexivity.
Qed.

(** C4, as stated, fails: with a candidate outside the whitelist and a
    confirm control that never shows, every pass of the admission loop ends in
    [continue] and the loop is still running after any number of passes. *)
Lemma admission_loop_never_ends :
  never_returns
    (fun fuel => admission_loop (Mock.respond Mock.stuck) Mock.CONFIG ["ABC"] false fuel "science" 0 0)
    (World (Mock.Game ["XYZ"] 0 0) ∅).
Proof. intros fuel. by destruct (stuck_loop fuel 0 0 ∅) as (evs & w' & ->). Qed.

(** ** The applicant scan *)

Lemma dict_get_set p k v d :
  dict_get p (dict_set k v d) = if decide (k = p) then Some v else dict_get p d.
Proof.
  induction d as [|[k' v'] d IH]; cbn.
  - done.
  - destruct (decide (k' = k)) as [->|Hk]; cbn.
    + by destruct (decide (k = p)).
    + rewrite IH. destruct (decide (k' = p)) as [->|]; [|done].
      by rewrite decide_False.
Qed.

Lemma dict_set_keys k v d :
  (dict_set k v d).*1 = if bool_decide (k ∈ d.*1) then d.*1 else d.*1 ++ [k].
Proof.
  induction d as [|[k' v'] d IH]; cbn; [done|].
  destruct (decide (k' = k)) as [->|Hk]; cbn.
  - rewrite bool_decide_eq_true_2; [done|]. apply elem_of_cons. by left.
  - rewrite IH. case_bool_decide as Hin.
    + rewrite bool_decide_eq_true_2; [done|]. apply elem_of_cons. by right.
    + rewrite bool_decide_eq_false_2; [done|].
      intros [?|?]%elem_of_cons; congruence.
Qed.

Lemma dict_set_NoDup k v d : NoDup d.*1 -> NoDup (dict_set k v d).*1.
Proof.
  intros Hd. rewrite dict_set_keys. case_bool_decide as Hin; [done|].
  apply NoDup_app. split; [done|]. split.
  - intros x Hx ->%list_elem_of_singleton. done.
  - apply NoDup_singleton.
Qed.





Lemma positions_near_applicants_sublist offset all apps :
  sublist (positions_near_applicants offset all apps) all.*1.
Proof.
  induction all as [|[k v] all IH]; cbn; [done|].
  destruct (applicant_nearby offset v apps).
  - by apply sublist_skip.
  - by apply sublist_cons.
Qed.

Section ApplicantScan.

Context {S : Type}.
Variable respond : forall T, query T -> S -> res T * S.

Lemma locate_positions_run types acc w :
  NoDup types ->
  NoDup acc.*1 ->
  (forall p, p ∈ types -> dict_get p acc = None) ->
  exists out evs w',
    locate_positions respond types acc w = (out, evs, w')
    /\ (forall n, n ∉ types -> template_matches n evs = [])
    /\ match out with
       | Val all =>
           NoDup all.*1
           /\ (forall p, p ∈ types ->
                 exists r, template_matches p evs = [Ok r]
                           /\ dict_get p all = head r)
           /\ (forall p, p ∉ types -> dict_get p all = dict_get p acc)
       | Raised => True
       | OutOfFuel => False
       end.
Proof.
  revert acc w. induction types as [|t types IH]; intros acc w Hnd Hacc Hfresh.
  { eexists _, _, _. split; [reflexivity|]. split; [done|].
    split; [done|]. split; [|done]. by intros p ?%elem_of_nil. }
  apply NoDup_cons in Hnd as [Ht Hnd].
  cbn [locate_positions]. unfold bind at 1, call at 1.
  destruct (respond _ (q_find_all_templates t) (device w)) as [[r|] s1].
  2:{ eexists _, _, _. split; [reflexivity|]. split; [|done].
      intros n [Hn _]%not_elem_of_cons. transcript. by rewrite decide_False. }
  set (acc' := match r with [] => acc | first :: _ => dict_set t first acc end).
  assert (NoDup acc'.*1) as Hacc'.
  { subst acc'. destruct r; [done|]. by apply dict_set_NoDup. }
  assert (forall p, dict_get p acc'
                    = if decide (t = p) then head r else dict_get p acc) as Hget.
  { intros p. subst acc'. destruct r as [|first r']; [|apply dict_get_set].
    destruct (decide (t = p)) as [<-|]; [|done].
    apply Hfresh, elem_of_cons. by left. }
  assert (match r with
          | [] => locate_positions respond types acc
          | first :: _ => locate_positions respond types (dict_set t first acc)
          end = locate_positions respond types acc') as -> by by destruct r.
  destruct (IH acc' (World s1 (last_approve w)) Hnd Hacc')
    as (out & evs & w' & -> & Hother & Hout).
  { intros p Hp. rewrite Hget, decide_False by (by intros ->).
    apply Hfresh, elem_of_cons. by right. }
  eexists _, _, _. split; [reflexivity|]. split.
  { intros n [Hn Hn']%not_elem_of_cons. transcript.
    rewrite decide_False by done. by apply Hother. }
  destruct out as [all| |]; [|done|done].
  destruct Hout as (Hall & Hin & Hout). split; [done|]. split.
  - intros p [->|Hp]%elem_of_cons.
    + exists r. split.
      * transcript. rewrite decide_True by done. by rewrite (Hother t Ht).
      * by rewrite (Hout t Ht), Hget, decide_True.
    + destruct (Hin p Hp) as (r' & Hm & Hg). exists r'. split; [|done].
      transcript. rewrite decide_False by (by intros ->). done.
  - intros p [Hp Hp']%not_elem_of_cons.
    by rewrite (Hout p Hp'), Hget, decide_False.
Qed.

Variable CONFIG : config.

Lemma position_types_NoDup : NoDup (secretary_types ++ additionalTypes).
Proof. apply (bool_decide_unpack _). by vm_compute. Qed.


End ApplicantScan.

(** ** The eviction scan *)



Ltac same_name p :=
  rewrite ?(decide_True (P := p = p)) by done;
  rewrite ?(decide_True (P := "vacant-" +:+ p = "vacant-" +:+ p)) by done;
  rewrite ?(decide_False (P := "vacant-" +:+ p = p)) by done;
  rewrite ?(decide_False (P := p = "vacant-" +:+ p)) by done;
  cbn.

Section EvictionScan.

Context {S : Type}.
Variable respond : forall T, query T -> S -> res T * S.


Lemma remove_check_due delays p w evs w' :
  remove_check respond delays p w = (Val true, evs, w') ->
  exists D, delays !! p = Some D /\ D <> 0.
Proof.
  unfold remove_check. destruct (delays !! p) as [D|]; [|done].
  case_bool_decide as HD; [done|]. by exists D.
Qed.

Lemma remove_check_terminates delays p w :
  (remove_check respond delays p w).1.1 <> OutOfFuel.
Proof.
  unfold remove_check, stamp_last_approve, set_last_approve, get_last_approve,
    bind, call, ret.
  destruct (delays !! p) as [D|]; [|done].
  case_bool_decide; [done|].
  destruct (respond _ q_now (device w)) as [[now|] s1]; [|done].
  cbn [device last_approve]. destruct (last_approve w !! p); [|done].
  cbn -[seconds]. case_bool_decide; [done|]. cbn -[seconds].
  destruct (respond _ (q_find_template ("vacant-" +:+ p)) s1) as [[[c|]|] s2];
    cbn; [| |done].
  - by destruct (respond _ q_now s2) as [[t|] s3].
  - by destruct (respond _ (q_find_template p) s2) as [[position|] s3].
Qed.

Lemma remove_scan_terminates delays types acc w :
  (remove_scan respond delays types acc w).1.1 <> OutOfFuel.
Proof.
  revert acc w. induction types as [|t types IH]; intros acc w; [done|].
  cbn [remove_scan]. unfold bind.
  pose proof (remove_check_terminates delays t w) as Hc.
  destruct (remove_check respond delays t w) as [[[due| |] evs1] w1]; [|done..].
  specialize (IH (if due then acc ++ [t] else acc) w1).
  by destruct (remove_scan respond delays types _ w1) as [[out evs2] w2].
Qed.

Lemma remove_scan_due delays types acc w result evs w' :
  remove_scan respond delays types acc w = (Val result, evs, w') ->
  forall p, p ∈ result ->
    p ∈ acc \/ (p ∈ types /\ exists D, delays !! p = Some D /\ D <> 0).
Proof.
  revert acc w evs. induction types as [|t types IH]; intros acc w evs.
  { intros [= <- <- <-] p Hp. by left. }
  cbn [remove_scan]. unfold bind at 1.
  destruct (remove_check respond delays t w) as [[[due| |] evs1] w1] eqn:Hcheck;
    [|done..].
  destruct (remove_scan respond delays types _ w1) as [[out evs2] w2] eqn:Hscan.
  intros Heq p Hp. injection Heq as -> <- <-.
  destruct (IH _ _ _ Hscan p Hp) as [Hacc|[Hin HD]].
  - destruct due; [|by left].
    apply elem_of_app in Hacc as [?|Hx%list_elem_of_singleton]; [by left|].
    subst p.
    right. split; [apply elem_of_cons; by left|].
    by eapply remove_check_due.
  - right. split; [|done]. apply elem_of_cons. by right.
Qed.

Lemma find_positions_to_remove_returns CONFIG w :
  exists result evs w',
    find_positions_to_remove respond CONFIG w = (Val result, evs, w')
    /\ forall p, p ∈ result ->
         exists arc delays D,
           cfg_auto_remove CONFIG = Some arc /\ title_cfg arc = Some delays
           /\ delays !! p = Some D /\ D <> 0.
Proof.
  unfold find_positions_to_remove.
  destruct (cfg_auto_remove CONFIG) as [arc|].
  2:{ eexists _, _, _. split; [reflexivity|]. by intros p ?%elem_of_nil. }
  destruct (dict_truthy arc); cbn [negb].
  2:{ eexists _, _, _. split; [reflexivity|]. by intros p ?%elem_of_nil. }
  unfold try_except.
  destruct (title_cfg arc) as [delays|] eqn:Hd.
  2:{ change (default ∅ None) with (∅ : gmap string Z).
      rewrite bool_decide_eq_true_2 by done.
      eexists _, _, _. split; [reflexivity|]. by intros p ?%elem_of_nil. }
  change (default ∅ (Some delays)) with delays.
  case_bool_decide.
  { eexists _, _, _. split; [reflexivity|]. by intros p ?%elem_of_nil. }
  destruct (remove_scan respond delays (secretary_types ++ additionalTypes) [] w)
    as [[[result| |] evs] w'] eqn:Hscan.
  - eexists _, _, _. split; [reflexivity|]. intros p Hp.
    destruct (remove_scan_due _ _ _ _ _ _ _ Hscan p Hp)
      as [?%elem_of_nil|(_ & D & ? & ?)]; [done|].
    by exists arc, delays, D.
  - eexists _, _, _. split; [reflexivity|]. by intros p ?%elem_of_nil.
  - by pose proof (remove_scan_terminates delays
                     (secretary_types ++ additionalTypes) [] w) as Hf;
      rewrite Hscan in Hf.
Qed.

Lemma remove_check_zero_delay delays p w :
  delays !! p = Some 0 ->
  remove_check respond delays p w = (Val false, [], w).
Proof. intros H. unfold remove_check. by rewrite H. Qed.

Lemma remove_check_unconfigured delays p w :
  delays !! p = None ->
  remove_check respond delays p w = (Val false, [], w).
Proof. intros H. unfold remove_check. by rewrite H. Qed.

Lemma remove_scan_zero_delay delays p types acc w :
  delays !! p = Some 0 ->
  remove_scan respond delays types acc w
  = remove_scan respond (delete p delays) types acc w.
Proof.
  intros Hp. revert acc w. induction types as [|t types IH]; intros acc w; [done|].
  cbn [remove_scan]. unfold bind.
  destruct (decide (t = p)) as [->|Hne].
  - rewrite remove_check_zero_delay by done.
    rewrite remove_check_unconfigured by apply lookup_delete_eq.
    by rewrite IH.
  - assert (remove_check respond (delete p delays) t = remove_check respond delays t)
      as -> by (unfold remove_check; by rewrite lookup_delete_ne).
    destruct (remove_check respond delays t w) as [[[due| |] evs1] w1]; [|done..].
    by rewrite IH.
Qed.

(** C10: a position whose configured delay is 0 is skipped like one with no
    delay at all: its check returns at once without reading the clock or the
    timer, the whole scan runs as it does with the entry removed, and the
    position is never in the result of [find_positions_to_remove], whatever
    its timer says. *)
Theorem zero_delay_is_never_due CONFIG arc delays p w :
  cfg_auto_remove CONFIG = Some arc ->
  title_cfg arc = Some delays ->
  delays !! p = Some 0 ->
  remove_check respond delays p w = (Val false, [], w)
  /\ remove_check respond (delete p delays) p w = (Val false, [], w)
  /\ (forall types acc,
        remove_scan respond delays types acc w
        = remove_scan respond (delete p delays) types acc w)
  /\ exists result evs w',
      find_positions_to_remove respond CONFIG w = (Val result, evs, w')
      /\ p ∉ result.
Proof.
  intros Harc Hdelays Hp.
  split; [by apply remove_check_zero_delay|].
  split; [apply remove_check_unconfigured, lookup_delete_eq|].
  split; [intros; by apply remove_scan_zero_delay|].
  destruct (find_positions_to_remove_returns CONFIG w)
    as (result & evs & w' & Hrun & Hdue).
  exists result, evs, w'. split; [done|]. intros Hin.
  destruct (Hdue p Hin) as (arc' & delays' & D & Harc' & Hdelays' & HD & Hnz).
  congruence.
Qed.

End EvictionScan.

(** ** Rules for properties of runs *)

#[global] Instance silent_composes {S X} (f : event -> list X) :
  Composes (S := S) (silent f).
Proof.
  split; unfold silent; [done|].
  intros _ evs1 _ evs2 _ H1 H2. by rewrite bind_app, H1, H2.
Qed.

#[global] Instance timers_kept_composes {S} : Composes (S := S) timers_kept.
Proof. split; unfold timers_kept; [done|]. congruence. Qed.

Lemma last_app_cases {A} (l1 l2 : list A) :
  last (l1 ++ l2) = match last l2 with Some x => Some x | None => last l1 end.
Proof.
  destruct l2 as [|x l2 _] using rev_ind.
  - by rewrite app_nil_r.
  - by rewrite app_assoc, !last_snoc.
Qed.

#[global] Instance stamps_composes {S} name : Composes (S := S) (stamps name).
Proof.
  split; unfold stamps.
  - intros w. by split.
  - intros w evs1 w1 evs2 w2 [Hf1 Hl1] [Hf2 Hl2]. split.
    + intros q Hq. by rewrite Hf2, Hf1.
    + rewrite clock_readings_app, last_app_cases.
      destruct (last (clock_readings evs2)) as [t|]; [done|].
      rewrite Hl2. exact Hl1.
Qed.

#[global] Instance and_composes {S} (P Q : run_property S) :
  Composes P -> Composes Q -> Composes (fun w evs w' => P w evs w' /\ Q w evs w').
Proof.
  intros HP HQ. split.
  - intros w. split; apply composes_nil.
  - intros w evs1 w1 evs2 w2 [? ?] [? ?]. split; eapply composes_app; eauto.
Qed.

Section Rules.
Context {S : Type} (P : run_property S) `{!Composes P}.

Lemma keeps_ret {A} (a : A) : keeps P (ret a).
Proof. intros w. apply composes_nil. Qed.

Lemma keeps_bind {A B} (m : M S A) (f : A -> M S B) :
  keeps P m -> (forall a, keeps P (f a)) -> keeps P (bind m f).
Proof.
  intros Hm Hf w. specialize (Hm w). unfold bind.
  destruct (m w) as [[[a| |] evs1] w1]; [|done..].
  specialize (Hf a w1). destruct (f a w1) as [[o evs2] w2].
  by eapply composes_app.
Qed.

Lemma keeps_try_except {A} (body handler : M S A) :
  keeps P body -> keeps P handler -> keeps P (try_except body handler).
Proof.
  intros Hb Hh w. specialize (Hb w). unfold try_except.
  destruct (body w) as [[[a| |] evs1] w1]; [done| |done].
  specialize (Hh w1). destruct (handler w1) as [[o evs2] w2].
  by eapply composes_app.
Qed.

Lemma keeps_out_of_fuel {A} : keeps P (out_of_fuel (A := A)).
Proof. intros w. apply composes_nil. Qed.

Lemma keeps_raise_exn {A} : keeps P (raise_exn (A := A)).
Proof. intros w. apply composes_nil. Qed.

Lemma keeps_get_last_approve name : keeps P (get_last_approve name).
Proof.
  intros w. unfold get_last_approve.
  destruct (last_approve w !! name); apply composes_nil.
Qed.

End Rules.

Section Calls.
Context {S : Type} (respond : forall T, query T -> S -> res T * S).

Lemma keeps_call_silent {X T} (f : event -> list X) (q : query T) :
  (forall r, f (Ev q r) = []) -> keeps (silent f) (call respond q).
Proof.
  intros Hq w. unfold call, silent.
  destruct (respond T q (device w)) as [[v|] s]; cbn; by rewrite Hq.
Qed.

Lemma keeps_call_timers {T} (q : query T) : keeps timers_kept (call respond q).
Proof.
  intros w. unfold call, timers_kept.
  by destruct (respond T q (device w)) as [[v|] s].
Qed.

Lemma keeps_call_stamps {T} name (q : query T) :
  (forall r, reading_of (Ev q r) = []) -> keeps (stamps name) (call respond q).
Proof.
  intros Hq w. unfold call, stamps.
  destruct (respond T q (device w)) as [[v|] s]; cbn -[reading_of clock_readings];
    (split; [done|]); by rewrite clock_readings_cons, Hq.
Qed.

Lemma keeps_stamp_silent {X} (f : event -> list X) name :
  (forall r, f (Ev q_now r) = []) ->
  keeps (silent f) (stamp_last_approve respond name).
Proof.
  intros Hq w. unfold stamp_last_approve, set_last_approve, bind, call, silent.
  destruct (respond _ q_now (device w)) as [[v|] s]; cbn; by rewrite Hq.
Qed.

Lemma keeps_stamp_stamps name : keeps (stamps name) (stamp_last_approve respond name).
Proof.
  intros w. unfold stamp_last_approve, set_last_approve, bind, call, stamps.
  destruct (respond _ q_now (device w)) as [[t|] s]; cbn; [|done].
  split.
  - intros q Hq. by rewrite lookup_insert_ne.
  - by rewrite lookup_insert_eq.
Qed.

End Calls.

(** Proves that a computation keeps a property, rule by rule. *)
Ltac footprint :=
  repeat first
    [ assumption
    | apply keeps_ret; typeclasses eauto
    | apply keeps_out_of_fuel; typeclasses eauto
    | apply keeps_raise_exn; typeclasses eauto
    | apply keeps_get_last_approve; typeclasses eauto
    | apply keeps_call_silent; intros; first [reflexivity | solve [auto]]
    | apply keeps_call_timers
    | apply keeps_call_stamps; intros; reflexivity
    | apply keeps_stamp_silent; intros; first [reflexivity | solve [auto]]
    | apply keeps_stamp_stamps
    | solve [eauto]
    | apply keeps_bind; [typeclasses eauto| |intros]
    | apply keeps_try_except; [typeclasses eauto| |]
    | match goal with
      | |- keeps _ (match ?x with _ => _ end) => destruct x
      | |- keeps _ (if ?b then _ else _) => destruct b
      end ].

Lemma keeps_run {S A} (P : run_property S) (m : M S A) w out evs w' :
  keeps P m -> m w = (out, evs, w') -> P w evs w'.
Proof. intros Hm Hrun. specialize (Hm w). by rewrite Hrun in Hm. Qed.

Section Returns.
Context {S : Type} (respond : forall T, query T -> S -> res T * S).

Lemma returns_ret {A} (a : A) : returns (S := S) (ret a).
Proof. by intros w. Qed.

Lemma returns_raise_exn {A} : returns (S := S) (raise_exn (A := A)).
Proof. by intros w. Qed.

Lemma returns_call {T} (q : query T) : returns (call respond q).
Proof. intros w. unfold call. by destruct (respond T q (device w)) as [[v|] s]. Qed.

Lemma returns_stamp name : returns (stamp_last_approve respond name).
Proof.
  intros w. unfold stamp_last_approve, set_last_approve, bind, call.
  by destruct (respond _ q_now (device w)) as [[v|] s].
Qed.

Lemma returns_bind {A B} (m : M S A) (f : A -> M S B) :
  returns m -> (forall a, returns (f a)) -> returns (bind m f).
Proof.
  intros Hm Hf w. specialize (Hm w). unfold bind.
  destruct (m w) as [[[a| |] evs1] w1]; [|done..].
  specialize (Hf a w1). by destruct (f a w1) as [[o evs2] w2].
Qed.

Lemma returns_try_except {A} (body handler : M S A) :
  returns body -> returns handler -> returns (try_except body handler).
Proof.
  intros Hb Hh w. specialize (Hb w). unfold try_except.
  destruct (body w) as [[[a| |] evs1] w1]; [done| |done].
  specialize (Hh w1). by destruct (handler w1) as [[o evs2] w2].
Qed.

Lemma at_most_silent {A X} (f : event -> list X) k (m : M S A) :
  keeps (silent f) m -> keeps (at_most f k) m.
Proof. intros Hm w. unfold at_most. rewrite (Hm w). cbn. lia. Qed.

Lemma at_most_after {A B X} (f : event -> list X) k (m : M S A) (g : A -> M S B) :
  keeps (silent f) m -> (forall a, keeps (at_most f k) (g a)) ->
  keeps (at_most f k) (bind m g).
Proof.
  intros Hm Hg w. specialize (Hm w). unfold bind, at_most, silent in *.
  destruct (m w) as [[[a| |] evs1] w1]; cbn [fst snd] in *;
    [|rewrite Hm; cbn; lia..].
  specialize (Hg a w1). destruct (g a w1) as [[o evs2] w2]; cbn [fst snd] in *.
  by rewrite bind_app, Hm.
Qed.

Lemma at_most_before {A B X} (f : event -> list X) k (m : M S A) (g : A -> M S B) :
  keeps (at_most f k) m -> (forall a, keeps (silent f) (g a)) ->
  keeps (at_most f k) (bind m g).
Proof.
  intros Hm Hg w. specialize (Hm w). unfold bind, at_most, silent in *.
  destruct (m w) as [[[a| |] evs1] w1]; cbn [fst snd] in *; [|done..].
  specialize (Hg a w1). destruct (g a w1) as [[o evs2] w2]; cbn [fst snd] in *.
  by rewrite bind_app, Hg, app_nil_r.
Qed.

Lemma at_most_try_except {A X} (f : event -> list X) k (body handler : M S A) :
  keeps (at_most f k) body -> keeps (silent f) handler ->
  keeps (at_most f k) (try_except body handler).
Proof.
  intros Hb Hh w. specialize (Hb w). unfold try_except, at_most, silent in *.
  destruct (body w) as [[[a| |] evs1] w1]; cbn [fst snd] in *; [done| |done].
  specialize (Hh w1). destruct (handler w1) as [[o evs2] w2]; cbn [fst snd] in *.
  by rewrite bind_app, Hh, app_nil_r.
Qed.

End Returns.

(** Proves that a computation never runs out of fuel, rule by rule. *)
Ltac returning :=
  repeat first
    [ assumption
    | apply returns_ret
    | apply returns_raise_exn
    | apply returns_call
    | apply returns_stamp
    | solve [eauto]
    | apply returns_bind; [|intros]
    | apply returns_try_except
    | match goal with
      | |- returns (match ?x with _ => _ end) => destruct x
      | |- returns (if ?b then _ else _) => destruct b
      end ].

(** ** The order of the button scans *)

Lemma yx_leb_le a b : yx_leb a b = true <-> yx_le a b.
Proof.
  unfold yx_leb, yx_le.
  by rewrite orb_true_iff, andb_true_iff, Z.ltb_lt, Z.eqb_eq, Z.leb_le.
Qed.

Lemma insert_yx_perm a l : insert_yx a l ≡ₚ a :: l.
Proof.
  induction l as [|b l IH]; cbn; [done|].
  destruct (yx_leb a b); [done|]. by rewrite IH, Permutation_swap.
Qed.

Lemma sorted_yx_perm l : sorted_yx l ≡ₚ l.
Proof.
  induction l as [|a l IH]; [done|].
  change (sorted_yx (a :: l)) with (insert_yx a (sorted_yx l)).
  by rewrite insert_yx_perm, IH.
Qed.

Lemma insert_yx_sorted a l :
  StronglySorted yx_le l -> StronglySorted yx_le (insert_yx a l).
Proof.
  induction 1 as [|b l Hl IH Hb]; cbn.
  - by repeat constructor.
  - destruct (yx_leb a b) eqn:Hab.
    + apply yx_leb_le in Hab. constructor; [by constructor|].
      constructor; [done|].
      eapply Forall_impl; [exact Hb|]. intros c Hc. cbv beta in *.
      unfold yx_le in *. lia.
    + constructor; [done|].
      rewrite insert_yx_perm. constructor; [|done].
      apply yx_leb_total, yx_leb_le in Hab. done.
Qed.

Lemma sorted_yx_sorted l : StronglySorted yx_le (sorted_yx l).
Proof.
  induction l as [|a l IH]; [constructor|].
  change (sorted_yx (a :: l)) with (insert_yx a (sorted_yx l)).
  by apply insert_yx_sorted.
Qed.

Section Buttons.
Context {S : Type} (respond : forall T, query T -> S -> res T * S).

Lemma find_accept_buttons_run w :
  exists r s,
    respond _ (q_find_all_templates "accept") (device w) = (r, s)
    /\ find_accept_buttons respond w
       = (Val (match r with Ok ms => sorted_yx ms | Exn => [] end),
          [Ev (q_find_all_templates "accept") r],
          World s (last_approve w)).
Proof.
  unfold find_accept_buttons, try_except, bind, call, ret.
  destruct (respond _ _ _) as [[[|m ms]|] s]; eexists _, _; (split; [done|]); done.
Qed.

(** X1: [find_accept_buttons] and [find_reject_buttons] make exactly one
    [find_all_templates] call, never raise and leave the timers alone.  When
    the call answers, the result is a rearrangement of the matches (nothing
    is dropped, nothing is added) sorted by [y], ties by [x]; when the call
    raises, the result is the empty list. *)
Theorem button_scans_sorted (w : world S) :
  (exists l r s,
      find_accept_buttons respond w
      = (Val l, [Ev (q_find_all_templates "accept") r], World s (last_approve w))
      /\ match r with
         | Ok ms => l ≡ₚ ms /\ StronglySorted yx_le l
         | Exn => l = []
         end)
  /\ (exists l r s,
        find_reject_buttons respond w
        = (Val l, [Ev (q_find_all_templates "reject") r], World s (last_approve w))
        /\ match r with
           | Ok ms => l ≡ₚ ms /\ StronglySorted yx_le l
           | Exn => l = []
           end).
Proof.
  split.
  - destruct (find_accept_buttons_run w) as (r & s & _ & ->).
    eexists _, r, s. split; [done|]. destruct r as [ms|]; [|done].
    split; [apply sorted_yx_perm|apply sorted_yx_sorted].
  - destruct (find_reject_buttons_run respond w) as (r & s & _ & ->).
    eexists _, r, s. split; [done|]. destruct r as [ms|]; [|done].
    split; [apply sorted_yx_perm|apply sorted_yx_sorted].
Qed.
End Buttons.

(** ** The footprint of the recovery *)

Lemma anchored_nil : ~ anchored [].
Proof. by intros (c & ?). Qed.

Lemma anchored_app_r evs1 evs2 :
  anchor_checks evs2 <> [] -> anchored (evs1 ++ evs2) <-> anchored evs2.
Proof.
  intros Hne. unfold anchored. rewrite anchor_checks_app, last_app_cases.
  destruct (last (anchor_checks evs2)) eqn:Hl; [done|].
  apply last_None in Hl. done.
Qed.

Lemma anchored_app_l evs1 evs2 :
  anchor_checks evs2 = [] -> anchored (evs1 ++ evs2) <-> anchored evs1.
Proof.
  intros He. unfold anchored. by rewrite anchor_checks_app, He, app_nil_r.
Qed.

Lemma anchored_silent_l evs1 evs2 :
  anchor_checks evs1 = [] -> anchored (evs1 ++ evs2) <-> anchored evs2.
Proof.
  intros He. unfold anchored. by rewrite anchor_checks_app, He.
Qed.

Lemma anchored_after_failure evs1 evs2 :
  anchor_checks evs1 = [Ok None] -> anchored (evs1 ++ evs2) <-> anchored evs2.
Proof.
  intros He. unfold anchored. rewrite anchor_checks_app, He.
  destruct (anchor_checks evs2) as [|r rs]; cbn; [|done].
  split; by intros (? & ?).
Qed.

Section RecoveryFootprint.
Context {S : Type} (respond : forall T, query T -> S -> res T * S).
Variable CONFIG : config.

Lemma exit_attempts_anchor (n : nat) (w : world S) :
  exists o evs w',
    exit_attempts respond CONFIG n w = (o, evs, w')
    /\ o <> OutOfFuel
    /\ (o = Val true <-> anchored evs)
    /\ (backs evs <= length (anchor_checks evs) <= backs evs + 1)%nat
    /\ (0 < n -> anchor_checks evs <> [])%nat.
Proof.
  revert w. induction n as [|n IH]; intros w.
  { eexists _, _, _. split; [reflexivity|]. split; [done|]. split.
    - split; [done|]. by intros ?%anchored_nil.
    - cbn. split; [lia|]. lia. }
  cbn [exit_attempts]. unfold verify_secretary_menu, bind, call, ret.
  destruct (respond _ (q_wait_for_image _ _) (device w)) as [[[c|]|] s1]; cbn.
  - eexists _, _, _. split; [reflexivity|]. split; [done|]. split.
    + split; [|done]. intros _. by exists c.
    + cbn. split; [lia|done].
  - destruct (respond _ q_press_back s1) as [[[]|] s2]; cbn.
    + destruct (respond _ (q_human_delay _) s2) as [[[]|] s3]; cbn.
      * destruct (IH (World s3 (last_approve w)))
          as (o & evs & w' & -> & Hnf & Hanch & Hb & Hne).
        eexists _, _, _. split; [reflexivity|]. split; [done|].
        change (?a :: ?b :: ?c :: evs) with ([a; b; c] ++ evs).
        split; [|split].
        -- rewrite Hanch. symmetry. by apply anchored_after_failure.
        -- rewrite backs_app, anchor_checks_app, length_app. cbn. lia.
        -- intros _. rewrite anchor_checks_app. done.
      * eexists _, _, _. split; [reflexivity|]. split; [done|]. split.
        -- split; [done|]. by intros (? & ?).
        -- cbn. split; [lia|done].
    + eexists _, _, _. split; [reflexivity|]. split; [done|]. split.
      * split; [done|]. by intros (? & ?).
      * cbn. split; [lia|done].
  - eexists _, _, _. split; [reflexivity|]. split; [done|]. split.
    + split; [done|]. by intros (? & ?).
    + cbn. split; [lia|done].
Qed.

Lemma exit_to_secretary_menu_anchor (w : world S) :
  exists b evs w',
    exit_to_secretary_menu respond CONFIG w = (Val b, evs, w')
    /\ (b = true <-> anchored evs)
    /\ (backs evs <= length (anchor_checks evs) <= backs evs + 1)%nat
    /\ anchor_checks evs <> [].
Proof.
  unfold exit_to_secretary_menu, try_except, max_attempts.
  destruct (exit_attempts_anchor 10 w) as (o & evs & w' & -> & Hnf & Ha & Hb & Hne).
  specialize (Hne ltac:(lia)).
  destruct o as [b| |]; [| |done].
  - exists b, evs, w'. split; [done|]. split; [|done].
    rewrite <- Ha. split; [by intros ->|by intros [= ->]].
  - cbn. exists false, (evs ++ []), w'. split; [done|]. rewrite app_nil_r.
    split; [|done]. rewrite <- Ha. done.
Qed.

Lemma exit_attempts_silent {X} (f : event -> list X) n :
  (forall n t r, f (Ev (q_wait_for_image n t) r) = []) ->
  (forall r, f (Ev q_press_back r) = []) ->
  (forall d r, f (Ev (q_human_delay d) r) = []) ->
  keeps (silent f) (exit_attempts respond CONFIG n).
Proof.
  intros Hw Hb Hd. induction n as [|n IH]; cbn [exit_attempts];
    unfold verify_secretary_menu; footprint.
Qed.

Lemma exit_silent {X} (f : event -> list X) :
  (forall n t r, f (Ev (q_wait_for_image n t) r) = []) ->
  (forall r, f (Ev q_press_back r) = []) ->
  (forall d r, f (Ev (q_human_delay d) r) = []) ->
  keeps (silent f) (exit_to_secretary_menu respond CONFIG).
Proof.
  intros Hw Hb Hd. unfold exit_to_secretary_menu.
  apply keeps_try_except; [typeclasses eauto|by apply exit_attempts_silent|].
  footprint.
Qed.

Lemma exit_timers_kept : keeps timers_kept (exit_to_secretary_menu respond CONFIG).
Proof.
  intros w. destruct (exit_to_secretary_menu_returns respond CONFIG w)
    as (b & evs & w' & -> & Hla & _). done.
Qed.

Lemma exit_stamps name : keeps (stamps name) (exit_to_secretary_menu respond CONFIG).
Proof.
  intros w. pose proof (exit_timers_kept w) as Ht.
  pose proof (exit_silent reading_of ltac:(done) ltac:(done) ltac:(done) w) as Hs.
  unfold stamps, timers_kept, silent in *.
  destruct (exit_to_secretary_menu respond CONFIG w) as [[o evs] w']. cbn in *.
  unfold clock_readings. rewrite Hs, Ht. done.
Qed.

(** X2: [exit_to_secretary_menu] always returns a boolean, and the boolean is
    [True] exactly when the last anchor check of the run saw the anchor.  It
    never taps, never reads the clock and takes no screenshot; every
    back-navigation follows an anchor check, so the checks outnumber the
    back-navigations by at most one. *)
Theorem recovery_footprint (w : world S) :
  exists b evs w',
    exit_to_secretary_menu respond CONFIG w = (Val b, evs, w')
    /\ taps evs = [] /\ template_taps evs = [] /\ clock_readings evs = []
    /\ screenshots evs = 0%nat
    /\ (b = true <-> anchored evs)
    /\ (backs evs <= length (anchor_checks evs) <= backs evs + 1)%nat.
Proof.
  destruct (exit_to_secretary_menu_anchor w) as (b & evs & w' & Hrun & Ha & Hb & _).
  exists b, evs, w'. split; [done|].
  split; [exact (keeps_run _ _ _ _ _ _
                   (exit_silent tap_of ltac:(done) ltac:(done) ltac:(done)) Hrun)|].
  split; [exact (keeps_run _ _ _ _ _ _
                   (exit_silent template_tap_of ltac:(done) ltac:(done) ltac:(done))
                   Hrun)|].
  split; [exact (keeps_run _ _ _ _ _ _
                   (exit_silent reading_of ltac:(done) ltac:(done) ltac:(done)) Hrun)|].
  split; [|done].
  unfold screenshots.
  by rewrite (keeps_run _ _ _ _ _ _
                (exit_silent screenshot_of ltac:(done) ltac:(done) ltac:(done)) Hrun).
Qed.

End RecoveryFootprint.

(** ** A visit to a position: [process_secretary_position] *)

Section Visit.
Context {S : Type} (respond : forall T, query T -> S -> res T * S).
Variable CONFIG : config.
Variable whitelist : list string.
Variable manual_deny : bool.

Lemma recover_run w :
  exists b evs w',
    recover respond CONFIG w = (Val b, evs, w')
    /\ (b = true <-> anchored evs) /\ anchor_checks evs <> [].
Proof.
  unfold recover, bind.
  destruct (exit_to_secretary_menu_anchor respond CONFIG w)
    as (b & evs & w' & -> & Ha & _ & Hne).
  exists b, (evs ++ []), w'. split; [by destruct b|]. by rewrite app_nil_r.
Qed.

Lemma recovered_recover : recovered (recover respond CONFIG).
Proof.
  intros w. destruct (recover_run w) as (b & evs & w' & -> & Ha & Hne). done.
Qed.

Lemma recovered_bind {A} (m : M S A) (f : A -> M S bool) :
  keeps (silent wait_of) m -> (forall a, recovered (f a)) -> recovered (bind m f).
Proof.
  intros Hm Hf w. specialize (Hm w). unfold bind.
  destruct (m w) as [[[a| |] evs1] w1]; change (anchor_checks evs1 = []) in Hm;
    [|done..].
  specialize (Hf a w1). destruct (f a w1) as [[[b| |] evs2] w2];
    cbn [fst snd recovered_run] in *.
  - destruct Hf as [Ha Hne]. split.
    + by rewrite anchored_silent_l.
    + by rewrite anchor_checks_app, Hm.
  - by rewrite anchor_checks_app, Hm, Hf.
  - done.
Qed.

Lemma ends_after first pre out evs :
  anchor_checks [first] = [] ->
  anchor_checks pre = [] ->
  recovered_run out evs ->
  ends_anchored first out (pre ++ evs).
Proof.
  intros Hfirst Hpre Hrec.
  destruct out as [b| |]; cbn [recovered_run ends_anchored] in *; [| |done].
  - destruct Hrec as [Ha Hne]. rewrite anchored_silent_l by done. rewrite Ha.
    split; [by right|]. intros [Heq|?]; [|done].
    apply (f_equal anchor_checks) in Heq.
    rewrite anchor_checks_app, Hpre, Hfirst in Heq. done.
  - by rewrite anchor_checks_app, Hpre, Hrec.
Qed.

Lemma admission_pass_no_anchor name :
  keeps (silent wait_of) (admission_pass respond whitelist manual_deny name).
Proof.
  unfold admission_pass, find_accept_buttons, process_candidate, reject_candidate,
    find_reject_buttons, resolve_reject.
  footprint.
Qed.

Lemma admission_pass_stamps name :
  keeps (stamps name) (admission_pass respond whitelist manual_deny name).
Proof.
  unfold admission_pass, find_accept_buttons, process_candidate, reject_candidate,
    find_reject_buttons, resolve_reject.
  footprint.
Qed.

Lemma admission_loop_keeps P `{!Composes P} fuel name processed accepted :
  keeps P (admission_pass respond whitelist manual_deny name) ->
  (forall d, keeps P (call respond (q_human_delay d))) ->
  keeps P (admission_loop respond CONFIG whitelist manual_deny fuel name
             processed accepted).
Proof.
  intros Hpass Hdelay. revert processed accepted.
  induction fuel as [|fuel IH]; intros processed accepted; cbn [admission_loop];
    footprint.
Qed.

Lemma process_secretary_position_stamps fuel name :
  keeps (stamps name)
    (process_secretary_position respond CONFIG whitelist manual_deny fuel name).
Proof.
  pose proof (admission_pass_stamps name) as Hpass.
  pose proof (exit_stamps respond CONFIG name) as Hexit.
  pose proof (admission_loop_keeps (stamps name) fuel name 0 0 Hpass
                ltac:(intros; footprint)) as Hloop.
  unfold process_secretary_position, process_secretary_position_body,
    find_accept_buttons.
  footprint.
Qed.

(** X4: a visit to the position [name] writes no timer but that of [name],
    and what it leaves there is the last clock reading of the run; a run that
    read no clock leaves every timer as it was. *)
Theorem admission_stamps_only_its_timer fuel name (w : world S) :
  exists out evs w',
    process_secretary_position respond CONFIG whitelist manual_deny fuel name w
    = (out, evs, w')
    /\ (forall q, q <> name -> last_approve w' !! q = last_approve w !! q)
    /\ match last (clock_readings evs) with
       | Some t => last_approve w' !! name = Some t
       | None => last_approve w' = last_approve w
       end.
Proof.
  pose proof (process_secretary_position_stamps fuel name w) as Hkeeps.
  destruct (process_secretary_position _ _ _ _ _ _ w) as [[out evs] w'].
  by exists out, evs, w'.
Qed.

Lemma admission_rest_recovered fuel name :
  recovered
    (accept_locations ← find_accept_buttons respond;
     match accept_locations with
     | [] => ret ()
     | _ =>
         (if bool_decide (5 < length accept_locations)%nat then
            call respond (q_handle_swipes "up" None);;
            call respond (q_human_delay (settle_time (cfg_timings CONFIG) * 2))
          else ret ());;
         admission_loop respond CONFIG whitelist manual_deny fuel name 0 0;;
         ret ()
     end;;
     anchored ← exit_to_secretary_menu respond CONFIG;
     if negb anchored then ret false else ret true).
Proof.
  pose proof (admission_loop_keeps (silent wait_of) fuel name 0 0
                (admission_pass_no_anchor name) ltac:(intros; footprint)) as Hloop.
  apply recovered_bind; [unfold find_accept_buttons; footprint|].
  intros accept_locations. apply recovered_bind; [footprint|].
  intros _. apply recovered_recover.
Qed.

Lemma process_secretary_position_body_run fuel name w :
  exists out evs w',
    process_secretary_position_body respond CONFIG whitelist manual_deny fuel name w
    = (out, evs, w')
    /\ ends_anchored (Ev (q_find_and_tap_template name None) (Ok false)) out evs.
Proof.
  unfold process_secretary_position_body.
  unfold bind at 1, call at 1.
  destruct (respond _ (q_find_and_tap_template name None) (device w))
    as [[[|]|] s1]; cbn [negb];
    [|eexists _, _, _; (split; [reflexivity|]); cbn; by (split; [left|])
     |eexists _, _, _; (split; [reflexivity|]); done].
  unfold bind at 1, call at 1. cbn [device last_approve].
  destruct (respond _ (q_human_delay _) s1) as [[[]|] s2];
    [|eexists _, _, _; (split; [reflexivity|]); done].
  unfold bind at 1, call at 1. cbn [device last_approve].
  destruct (respond _ (q_find_template "full_list") s2) as [[full_list|] s3];
    [|eexists _, _, _; (split; [reflexivity|]); done].
  destruct full_list as [c|]; cbn [bool_decide decide_rel is_Some_dec option_eq_None_dec].
  - pose proof (recovered_recover (World s3 (last_approve w))) as Hrec.
    unfold recover in Hrec.
    destruct (bind (exit_to_secretary_menu respond CONFIG) _ (World s3 (last_approve w)))
      as [[out evs] w'].
    eexists _, _, _. split; [reflexivity|].
    rewrite !app_assoc. by apply ends_after.
  - unfold bind at 1, call at 1. cbn [device last_approve].
    destruct (respond _ (q_find_and_tap_template "list" _) s3) as [[[|]|] s4];
      cbn [negb].
    + pose proof (admission_rest_recovered fuel name (World s4 (last_approve w)))
        as Hrec.
      destruct (bind (find_accept_buttons respond) _ (World s4 (last_approve w)))
        as [[out evs] w'].
      eexists _, _, _. split; [reflexivity|].
      rewrite !app_assoc. by apply ends_after.
    + eexists _, _, _. split; [reflexivity|]. cbn.
      split; [done|]. intros [H|(c & H)]; [by apply (f_equal length) in H|]. discriminate H.
    + eexists _, _, _. split; [reflexivity|]. done.
Qed.

Lemma process_secretary_position_ends fuel name w :
  exists out evs w',
    process_secretary_position respond CONFIG whitelist manual_deny fuel name w
    = (out, evs, w')
    /\ out <> Raised
    /\ ends_anchored (Ev (q_find_and_tap_template name None) (Ok false)) out evs.
Proof.
  unfold process_secretary_position, try_except.
  destruct (process_secretary_position_body_run fuel name w)
    as (out & evs & w' & -> & Hends).
  destruct out as [b| |].
  - by eexists _, _, _.
  - destruct (recover_run w') as (b' & evs' & w'' & Hrun & Ha & Hne).
    unfold recover in Hrun. rewrite Hrun.
    eexists _, _, _. split; [reflexivity|]. split; [done|].
    by apply (ends_after _ evs (Val b') evs').
  - by eexists _, _, _.
Qed.

(** X3: [process_secretary_position] never raises: whatever a collaborator
    does, the exception is caught and answered by the recovery.  It returns
    [True] in exactly two cases: the icon of the position was not found (the
    failed tap is then its only call), or the last anchor check of the run saw
    the anchor. *)
Theorem admission_return_value fuel name (w : world S) :
  exists out evs w',
    process_secretary_position respond CONFIG whitelist manual_deny fuel name w
    = (out, evs, w')
    /\ out <> Raised
    /\ forall b, out = Val b ->
         (b = true
          <-> evs = [Ev (q_find_and_tap_template name None) (Ok false)]
              \/ anchored evs).
Proof.
  destruct (process_secretary_position_ends fuel name w)
    as (out & evs & w' & Hrun & Hnr & Hends).
  exists out, evs, w'. do 2 (split; [done|]). by intros b ->.
Qed.

End Visit.

Section AcceptAll.
Context {S : Type} (respond : forall T, query T -> S -> res T * S).
Variable CONFIG : config.
Variable manual_deny : bool.

Lemma exit_to_secretary_menu_returns_value :
  returns (exit_to_secretary_menu respond CONFIG).
Proof.
  intros w.
  by destruct (exit_to_secretary_menu_returns respond CONFIG w)
    as (b & evs & w' & -> & _).
Qed.

(** With an empty whitelist a pass never ends in [continue]: it breaks, or
    it taps the topmost accept control and is counted. *)
Lemma accept_all_pass name w :
  exists out evs w',
    admission_pass respond [] manual_deny name w = (out, evs, w')
    /\ out <> Val Continue /\ out <> OutOfFuel
    /\ (length (taps evs) <= 1)%nat.
Proof.
  unfold admission_pass, find_accept_buttons, process_candidate,
    stamp_last_approve, set_last_approve, try_except, bind, call, ret.
  change (bool_decide (0 < length (@nil string))%nat) with false.
  run; eexists _, _, _; (split; [reflexivity|]); cbn; (do 2 (split; [done|])); lia.
Qed.

Lemma accept_all_loop fuel name processed accepted w :
  (5 <= fuel + processed)%nat ->
  exists out evs w',
    admission_loop respond CONFIG [] manual_deny fuel name processed accepted w
    = (out, evs, w')
    /\ out <> OutOfFuel
    /\ (length (taps evs) + processed <= 5 \/ taps evs = [])%nat.
Proof.
  revert processed accepted w.
  induction fuel as [|fuel IH]; intros processed accepted w Hp;
    cbn [admission_loop]; case_bool_decide as Hlt;
    try (eexists _, _, _; split; [reflexivity|]; cbn; split; [done|by right]);
    [lia|].
  unfold bind at 1.
  destruct (accept_all_pass name w) as (out & evs & w1 & -> & Hc & Hnf & Ht).
  destruct out as [[| |a]| |]; [|done| | |done].
  - eexists _, _, _. split; [reflexivity|]. split; [done|].
    left. rewrite taps_app, length_app. cbn. lia.
  - unfold bind at 1, call at 1.
    destruct (respond _ (q_human_delay _) (device w1)) as [[[]|] s2].
    + destruct (IH (processed + 1)%nat (accepted + a)%nat
                  (World s2 (last_approve w1)) ltac:(lia))
        as (out' & evs' & w' & -> & Hnf' & Ht').
      eexists _, _, _. split; [reflexivity|]. split; [by destruct out'|].
      left. rewrite !taps_app, !length_app. cbn.
      destruct Ht' as [?| ->]; cbn; lia.
    + eexists _, _, _. split; [reflexivity|]. split; [done|].
      left. rewrite !taps_app, !length_app. cbn. lia.
  - eexists _, _, _. split; [reflexivity|]. split; [done|].
    left. lia.
Qed.

Lemma accept_all_loop_returns fuel name :
  returns (admission_loop respond CONFIG [] manual_deny (5 + fuel) name 0 0).
Proof.
  intros w.
  by destruct (accept_all_loop (5 + fuel) name 0 0 w ltac:(lia))
    as (out & evs & w' & -> & ? & _).
Qed.

Lemma accept_all_loop_taps fuel name :
  keeps (at_most tap_of 5)
    (admission_loop respond CONFIG [] manual_deny (5 + fuel) name 0 0).
Proof.
  intros w. unfold at_most.
  destruct (accept_all_loop (5 + fuel) name 0 0 w ltac:(lia))
    as (out & evs & w' & -> & _ & Ht).
  cbn [fst snd]. change (evs ≫= tap_of) with (taps evs).
  destruct Ht as [?| ->]; cbn; lia.
Qed.

Lemma accept_all_visit_silent {X} (f : event -> list X) fuel name :
  (forall n t r, f (Ev (q_wait_for_image n t) r) = []) ->
  (forall r, f (Ev q_press_back r) = []) ->
  (forall d r, f (Ev (q_human_delay d) r) = []) ->
  (forall n t r, f (Ev (q_find_and_tap_template n t) r) = []) ->
  (forall n r, f (Ev (q_find_template n) r) = []) ->
  (forall n r, f (Ev (q_find_all_templates n) r) = []) ->
  (forall d t r, f (Ev (q_handle_swipes d t) r) = []) ->
  (forall r, f (Ev q_take_screenshot r) = []) ->
  (forall p r, f (Ev (q_imread p) r) = []) ->
  (forall c r, f (Ev (q_humanized_tap c) r) = []) ->
  (forall r, f (Ev q_now r) = []) ->
  keeps (silent f)
    (process_secretary_position respond CONFIG [] manual_deny fuel name).
Proof.
  intros.
  pose proof (exit_silent respond CONFIG f ltac:(done) ltac:(done) ltac:(done))
    as Hexit.
  assert (keeps (silent f) (admission_pass respond [] manual_deny name)) as Hpass.
  { unfold admission_pass, find_accept_buttons, process_candidate.
    change (bool_decide (0 < length (@nil string))%nat) with false.
    footprint. }
  pose proof (admission_loop_keeps respond CONFIG [] manual_deny (silent f)
                fuel name 0 0 Hpass ltac:(intros; footprint)) as Hloop.
  unfold process_secretary_position, process_secretary_position_body,
    find_accept_buttons.
  footprint.
Qed.

Lemma accept_all_visit_taps fuel name :
  keeps (at_most tap_of 5)
    (process_secretary_position respond CONFIG [] manual_deny (5 + fuel) name).
Proof.
  pose proof (exit_silent respond CONFIG tap_of ltac:(done) ltac:(done)
                ltac:(done)) as Hexit.
  unfold process_secretary_position, process_secretary_position_body.
  apply at_most_try_except; [|footprint].
  apply at_most_after; [footprint|]. intros found.
  destruct (negb found); [apply at_most_silent; footprint|].
  apply at_most_after; [footprint|]. intros _.
  apply at_most_after; [footprint|]. intros full_list.
  case_bool_decide; [apply at_most_silent; footprint|].
  apply at_most_after; [footprint|]. intros listed.
  destruct (negb listed); [apply at_most_silent; footprint|].
  apply at_most_after; [unfold find_accept_buttons; footprint|].
  intros accept_locations.
  apply at_most_before; [|intros; footprint].
  destruct accept_locations as [|c cs]; [apply at_most_silent; footprint|].
  apply at_most_after; [footprint|]. intros _.
  apply at_most_before; [|intros; footprint].
  apply accept_all_loop_taps.
Qed.

(** X5: with an empty whitelist a visit always returns once the loop is
    given five passes: no pass is repeated, since no confirm control is
    involved.  It taps at most five accept controls, reads no text and logs
    no rejection. *)
Theorem accept_all_visit_is_bounded fuel name (w : world S) :
  exists b evs w',
    process_secretary_position respond CONFIG [] manual_deny (5 + fuel) name w
    = (Val b, evs, w')
    /\ (length (taps evs) <= 5)%nat
    /\ extracted evs = []
    /\ rejections_logged evs = [].
Proof.
  set (visit := process_secretary_position respond CONFIG [] manual_deny
                  (5 + fuel) name).
  pose proof exit_to_secretary_menu_returns_value as Hexit.
  pose proof (accept_all_loop_returns fuel name) as Hloop.
  assert (returns visit) as Hret.
  { unfold visit, process_secretary_position, process_secretary_position_body,
      find_accept_buttons.
    returning. }
  destruct (process_secretary_position_ends respond CONFIG [] manual_deny
              (5 + fuel) name w) as (out & evs & w' & Hrun & Hnr & _).
  specialize (Hret w). fold visit in Hrun. rewrite Hrun in Hret.
  destruct out as [b| |]; [|done..].
  exists b, evs, w'. split; [done|].
  split; [exact (keeps_run _ _ _ _ _ _ (accept_all_visit_taps fuel name) Hrun)|].
  split.
  - by apply (keeps_run _ _ _ _ _ _
                (accept_all_visit_silent extracted_of (5 + fuel) name
                   ltac:(done) ltac:(done) ltac:(done) ltac:(done) ltac:(done)
                   ltac:(done) ltac:(done) ltac:(done) ltac:(done) ltac:(done)
                   ltac:(done)) Hrun).
  - by apply (keeps_run _ _ _ _ _ _
                (accept_all_visit_silent rejection_of (5 + fuel) name
                   ltac:(done) ltac:(done) ltac:(done) ltac:(done) ltac:(done)
                   ltac:(done) ltac:(done) ltac:(done) ltac:(done) ltac:(done)
                   ltac:(done)) Hrun).
Qed.

End AcceptAll.

(** ** Dismissal: [process_remove_position] *)

Lemma done_template_taps_app n evs1 evs2 :
  done_template_taps n (evs1 ++ evs2)
  = (done_template_taps n evs1 + done_template_taps n evs2)%nat.
Proof. unfold done_template_taps. by rewrite bind_app, length_app. Qed.

Lemma removal_guarded_quiet tail evs :
  quiet evs -> removal_guarded tail -> removal_guarded (tail ++ evs).
Proof.
  intros (Ht & Hl & Hc & Hd & _). unfold removal_guarded.
  rewrite template_taps_app, !template_lookups_app, clock_readings_app,
    !done_template_taps_app, Ht, !Hl, Hc, !Hd, !app_nil_r, !Nat.add_0_r.
  done.
Qed.

Section Removal.
Context {S : Type} (respond : forall T, query T -> S -> res T * S).
Variable CONFIG : config.

Lemma recover_quiet w :
  exists b evs w',
    recover respond CONFIG w = (Val b, evs, w') /\ quiet evs.
Proof.
  destruct (recover_run respond CONFIG w) as (b & evs & w' & Hrun & _).
  exists b, evs, w'. split; [done|].
  assert (forall X (f : event -> list X),
             (forall n t r, f (Ev (q_wait_for_image n t) r) = []) ->
             (forall r, f (Ev q_press_back r) = []) ->
             (forall d r, f (Ev (q_human_delay d) r) = []) ->
             evs ≫= f = []) as Hsilent.
  { intros X f H1 H2 H3.
    pose proof (exit_silent respond CONFIG f H1 H2 H3) as Hexit.
    refine (keeps_run (silent f) _ _ _ _ _ _ Hrun).
    unfold recover. footprint. }
  unfold quiet, template_taps, template_lookups, clock_readings,
    done_template_taps, taps.
  rewrite !Hsilent by done. repeat split; intros; by rewrite ?Hsilent.
Qed.

Lemma removal_decision_run name d empty_list w :
  exists out evs w',
    (if negb (bool_decide (is_Some empty_list)) then
       stamp_last_approve respond name
     else
       appoint ← call respond (q_find_template "appoint");
       if bool_decide (is_Some appoint) then
         dismissed ← call respond (q_find_and_tap_template "dismiss" None);
         if dismissed then
           call respond (q_human_delay (tap_delay (cfg_timings CONFIG)));;
           confirmed ← call respond (q_find_and_tap_template "confirm-blue" None);
           if confirmed then
             call respond (q_human_delay (tap_delay (cfg_timings CONFIG)));;
             stamp_last_approve respond name
           else ret ()
         else ret ()
       else stamp_last_approve respond name) w
    = (out, evs, w')
    /\ out <> OutOfFuel
    /\ removal_guarded
         ([Ev (q_human_delay d) (Ok ());
           Ev (q_find_template "empty_list") (Ok empty_list)] ++ evs)
    /\ taps evs = [] /\ anchor_checks evs = [].
Proof.
  unfold stamp_last_approve, set_last_approve, bind, call, ret.
  destruct empty_list as [c|].
  all: run.
  all: eexists _, _, _; (split; [reflexivity|]); (split; [done|]).
  all: repeat match goal with
         | H : bool_decide (is_Some ?o) = _ |- _ =>
             destruct o; vm_compute in H; try discriminate H; clear H
         end.
  all: split; [|split; reflexivity].
  all: unfold removal_guarded; vm_compute.
  all: intuition (eauto; discriminate).
Qed.

Lemma recovered_run_after pre out evs :
  anchor_checks pre = [] -> recovered_run out evs -> recovered_run out (pre ++ evs).
Proof.
  intros Hpre Hrec. destruct out as [b| |]; cbn [recovered_run] in *; [| |done].
  - rewrite anchored_silent_l by done. by rewrite anchor_checks_app, Hpre.
  - by rewrite anchor_checks_app, Hpre, Hrec.
Qed.

Lemma process_remove_position_body_run name w :
  exists out r tail w',
    process_remove_position_body respond CONFIG name w
    = (out, Ev (q_find_and_tap_template name None) r :: tail, w')
    /\ removal_guarded tail /\ taps tail = []
    /\ (r = Ok false -> tail = [])
    /\ removal_ends out r tail.
Proof.
  assert (removal_guarded []) as Hnil by (vm_compute; intuition discriminate).
  unfold process_remove_position_body.
  unfold bind at 1, call at 1.
  destruct (respond _ (q_find_and_tap_template name None) (device w))
    as [[[|]|] s1]; cbn [negb];
    [|eexists _, _, _, _; (split; [reflexivity|]); cbn; by auto 10
     |eexists _, _, _, _; (split; [reflexivity|]); by cbn].
  unfold bind at 1, call at 1. cbn [device last_approve].
  destruct (respond _ (q_human_delay _) s1) as [[[]|] s2];
    [|eexists _, _, _, _; (split; [reflexivity|]); repeat split; try done;
      vm_compute; intuition discriminate].
  unfold bind at 1, call at 1. cbn [device last_approve].
  destruct (respond _ (q_find_template "empty_list") s2) as [[empty_list|] s3];
    [|eexists _, _, _, _; (split; [reflexivity|]); repeat split; try done;
      vm_compute; intuition discriminate].
  unfold bind at 1.
  destruct (removal_decision_run name (tap_delay (cfg_timings CONFIG)) empty_list
              (World s3 (last_approve w)))
    as (out & evs & w1 & -> & Hnf & Hg & Ht & Hac).
  destruct out as [[]| |]; [| |done].
  - destruct (recover_run respond CONFIG w1) as (b & eve & we & Hrun & Ha & Hne).
    destruct (recover_quiet w1) as (b' & eve' & we' & Hrun' & Hq).
    rewrite Hrun in Hrun'. injection Hrun' as <- <- <-.
    unfold recover in Hrun. rewrite Hrun.
    eexists _, _, _, _. split; [reflexivity|].
    cbn [app]. rewrite !app_comm_cons.
    split; [by apply removal_guarded_quiet|].
    split; [rewrite taps_app, (proj2 (proj2 (proj2 (proj2 Hq)))), app_nil_r; exact Ht|].
    split; [done|].
    right. apply recovered_run_after; [|done].
    rewrite !anchor_checks_cons, Hac. done.
  - eexists _, _, _, _. split; [reflexivity|].
    cbn [app]. do 3 (split; [done|]).
    cbn [removal_ends]. rewrite !anchor_checks_cons, Hac. done.
Qed.

Lemma process_remove_position_run name w :
  exists b r tail w',
    process_remove_position respond CONFIG name w
    = (Val b, Ev (q_find_and_tap_template name None) r :: tail, w')
    /\ removal_guarded tail /\ taps tail = []
    /\ (r = Ok false -> tail = [])
    /\ ((b = true /\ tail = [] /\ r = Ok false) \/ recovered_run (Val b) tail).
Proof.
  unfold process_remove_position, try_except.
  destruct (process_remove_position_body_run name w)
    as (out & r & tail & w1 & -> & Hg & Ht & Hr & Hends).
  destruct out as [b| |]; [by eexists _, _, _, _| |done].
  destruct (recover_run respond CONFIG w1) as (b & eve & we & Hrun & Ha & Hne).
  destruct (recover_quiet w1) as (b' & eve' & we' & Hrun' & Hq).
  rewrite Hrun in Hrun'. injection Hrun' as <- <- <-.
  unfold recover in Hrun. rewrite Hrun.
  eexists _, _, _, _. split; [reflexivity|].
  split; [by apply removal_guarded_quiet|].
  split; [rewrite taps_app, (proj2 (proj2 (proj2 (proj2 Hq)))), app_nil_r; exact Ht|].
  split.
  - intros ->. by destruct Hends.
  - right. apply recovered_run_after; [apply Hends|done].
Qed.

Lemma process_remove_position_stamps name :
  keeps (stamps name) (process_remove_position respond CONFIG name).
Proof.
  pose proof (exit_stamps respond CONFIG name) as Hexit.
  unfold process_remove_position, process_remove_position_body.
  footprint.
Qed.

(** X6: [process_remove_position] always returns a boolean.  It is [True]
    exactly when the icon of the position was not found (the failed tap is
    then its only call) or the last anchor check of the run saw the anchor;
    it is [False] only after a recovery whose last check did not see it. *)
Theorem removal_return_value name (w : world S) :
  exists b evs w',
    process_remove_position respond CONFIG name w = (Val b, evs, w')
    /\ (b = true
        <-> evs = [Ev (q_find_and_tap_template name None) (Ok false)]
            \/ anchored evs)
    /\ (b = false -> anchor_checks evs <> [] /\ ~ anchored evs).
Proof.
  destruct (process_remove_position_run name w)
    as (b & r & tail & w' & Hrun & _ & _ & _ & Hends).
  eexists _, _, _. split; [exact Hrun|].
  change (?e :: tail) with ([e] ++ tail).
  rewrite anchored_silent_l, anchor_checks_app by done.
  destruct Hends as [(-> & -> & ->)|[Ha Hne]].
  - split; [|done]. split; [intros _; by left|done].
  - rewrite <- Ha. split.
    + split; [intros ?; by right|]. intros [Heq|?]; [|done].
      apply (f_equal anchor_checks) in Heq.
      by rewrite anchor_checks_app in Heq.
    + intros ->. split; [done|]. by intros ?.
Qed.

(** X7: the run of [process_remove_position] opens with the tap on the
    position; when that tap answers [False] nothing follows.  After it the
    method never calls [humanized_tap]; the only templates it taps are
    "dismiss" and then "confirm-blue", and only after it saw both the
    empty-list and the appoint indicator; "confirm-blue" is tapped only after
    the tap on "dismiss" succeeded.  The clock is read only when applicants
    are still queued, when the appoint indicator is missing, or when the
    dismissal was confirmed; no timer but that of the position is written. *)
Theorem dismissal_is_guarded name (w : world S) :
  exists b r tail w',
    process_remove_position respond CONFIG name w
    = (Val b, Ev (q_find_and_tap_template name None) r :: tail, w')
    /\ (r = Ok false -> tail = [])
    /\ taps tail = []
    /\ removal_guarded tail
    /\ (forall q, q <> name -> last_approve w' !! q = last_approve w !! q)
    /\ match last (clock_readings tail) with
       | Some t => last_approve w' !! name = Some t
       | None => last_approve w' = last_approve w
       end.
Proof.
  destruct (process_remove_position_run name w)
    as (b & r & tail & w' & Hrun & Hg & Ht & Hr & _).
  exists b, r, tail, w'. do 4 (split; [done|]).
  exact (keeps_run _ _ _ _ _ _ (process_remove_position_stamps name) Hrun).
Qed.

End Removal.

(** ** The footprint of the scans *)

#[global] Instance vacancy_resets_composes {S} p :
  Composes (S := S) (vacancy_resets p).
Proof.
  split; unfold vacancy_resets.
  - intros w. by left.
  - intros w evs1 w1 evs2 w2 [H1|(c & H1)] [H2|(c' & H2)].
    + left. congruence.
    + right. exists c'. rewrite template_lookups_app, elem_of_app. by right.
    + right. exists c. rewrite template_lookups_app, elem_of_app. by left.
    + right. exists c. rewrite template_lookups_app, elem_of_app. by left.
Qed.

#[global] Instance scans_only_composes {S} names :
  Composes (S := S) (scans_only names).
Proof.
  split; unfold scans_only.
  - intros _. constructor.
  - intros _ evs1 _ evs2 _ H1 H2. by apply Forall_app.
Qed.

Section Scans.
Context {S : Type} (respond : forall T, query T -> S -> res T * S).
Variable CONFIG : config.

Lemma remove_scan_keeps P `{!Composes P} delays types acc :
  (forall p, p ∈ types -> keeps P (remove_check respond delays p)) ->
  keeps P (remove_scan respond delays types acc).
Proof.
  revert acc.
  induction types as [|t types IH]; intros acc Hcheck; cbn [remove_scan];
    [footprint|].
  assert (forall acc, keeps P (remove_scan respond delays types acc)) as IH'.
  { intros acc'. apply IH. intros p Hp. apply Hcheck, elem_of_cons. by right. }
  assert (keeps P (remove_check respond delays t)) as Ht.
  { apply Hcheck, elem_of_cons. by left. }
  footprint.
Qed.

Lemma find_positions_to_remove_keeps P `{!Composes P} :
  (forall delays p, p ∈ secretary_types ++ additionalTypes ->
                    keeps P (remove_check respond delays p)) ->
  keeps P (find_positions_to_remove respond CONFIG).
Proof.
  intros Hcheck. unfold find_positions_to_remove.
  pose proof (fun delays acc =>
                remove_scan_keeps P delays (secretary_types ++ additionalTypes)
                  acc (Hcheck delays)) as Hscan.
  footprint.
Qed.

Lemma remove_check_silent {X} (f : event -> list X) delays p :
  (forall r, f (Ev q_now r) = []) ->
  (forall n r, f (Ev (q_find_template n) r) = []) ->
  keeps (silent f) (remove_check respond delays p).
Proof. intros Hn Hf. unfold remove_check. footprint. Qed.

Lemma remove_check_vacancy_resets delays p q :
  keeps (vacancy_resets p) (remove_check respond delays q).
Proof.
  intros w.
  unfold remove_check, stamp_last_approve, set_last_approve, get_last_approve,
    bind, call, ret, vacancy_resets.
  destruct (delays !! q) as [D|]; [|by left].
  case_bool_decide; [by left|].
  destruct (respond _ q_now (device w)) as [[now|] s1]; [|by left].
  cbn [device last_approve]. destruct (last_approve w !! q); [|by left].
  cbn -[seconds]. case_bool_decide; [by left|]. cbn -[seconds].
  destruct (respond _ (q_find_template ("vacant-" +:+ q)) s1) as [[[c|]|] s2];
    cbn; [| |by left].
  - destruct (respond _ q_now s2) as [[t|] s3]; cbn; [|by left].
    destruct (decide (q = p)) as [->|Hne].
    + right. exists c. transcript. same_name p. apply elem_of_cons. by left.
    + left. by rewrite lookup_insert_ne.
  - destruct (respond _ (q_find_template q) s2) as [[position|] s3]; by left.
Qed.

Lemma remove_scan_sublist delays types acc w result evs w' :
  remove_scan respond delays types acc w = (Val result, evs, w') ->
  exists found, result = acc ++ found /\ found `sublist_of` types.
Proof.
  revert acc w evs. induction types as [|t types IH]; intros acc w evs.
  { intros [= <- <- <-]. exists []. by rewrite app_nil_r. }
  cbn [remove_scan]. unfold bind at 1.
  destruct (remove_check respond delays t w) as [[[due| |] evs1] w1]; [|done..].
  destruct (remove_scan respond delays types _ w1) as [[out evs2] w2] eqn:Hscan.
  intros [= -> <- <-].
  destruct (IH _ _ _ Hscan) as (found & -> & Hsub).
  destruct due.
  - exists (t :: found). split; [by rewrite <- app_assoc|]. by apply sublist_skip.
  - exists found. split; [done|]. by apply sublist_cons.
Qed.

Lemma find_positions_to_remove_sublist w :
  exists result evs w',
    find_positions_to_remove respond CONFIG w = (Val result, evs, w')
    /\ result `sublist_of` secretary_types ++ additionalTypes.
Proof.
  assert (forall A (l : list A), [] `sublist_of` l) as Hnil
      by (intros; apply sublist_nil_l).
  unfold find_positions_to_remove.
  destruct (cfg_auto_remove CONFIG) as [arc|]; [|by eexists _, _, _].
  destruct (dict_truthy arc); cbn [negb]; [|by eexists _, _, _].
  unfold try_except.
  case_bool_decide; [by eexists _, _, _|].
  destruct (remove_scan respond _ (secretary_types ++ additionalTypes) [] w)
    as [[[result| |] evs] w'] eqn:Hscan.
  - destruct (remove_scan_sublist _ _ _ _ _ _ _ Hscan) as (found & -> & Hsub).
    by eexists _, _, _.
  - by eexists _, _, _.
  - by pose proof (remove_scan_terminates respond (default ∅ (title_cfg arc))
                     (secretary_types ++ additionalTypes) [] w) as Hf;
      rewrite Hscan in Hf.
Qed.

(** X9: [find_positions_to_remove] always returns; it never taps, never
    navigates back and never checks the anchor.  The positions it returns
    come in the order of the catalogue.  The only timers it writes are those
    of positions whose vacancy marker it saw. *)
Theorem eviction_scan_footprint (w : world S) :
  exists result evs w',
    find_positions_to_remove respond CONFIG w = (Val result, evs, w')
    /\ result `sublist_of` secretary_types ++ additionalTypes
    /\ taps evs = [] /\ template_taps evs = [] /\ anchor_checks evs = []
    /\ backs evs = 0%nat
    /\ forall p,
         last_approve w' !! p = last_approve w !! p
         \/ exists c, Ok (Some c) ∈ template_lookups ("vacant-" +:+ p) evs.
Proof.
  destruct (find_positions_to_remove_sublist w)
    as (result & evs & w' & Hrun & Hsub).
  exists result, evs, w'. do 2 (split; [done|]).
  assert (forall X (f : event -> list X),
             (forall r, f (Ev q_now r) = []) ->
             (forall n r, f (Ev (q_find_template n) r) = []) ->
             evs ≫= f = []) as Hsilent.
  { intros X f H1 H2.
    refine (keeps_run (silent f) _ _ _ _ _ _ Hrun).
    apply find_positions_to_remove_keeps; [typeclasses eauto|].
    intros. by apply remove_check_silent. }
  unfold taps, template_taps, anchor_checks, backs.
  rewrite !Hsilent by done. do 4 (split; [done|]).
  intros p.
  refine (keeps_run (vacancy_resets p) _ _ _ _ _ _ Hrun).
  apply find_positions_to_remove_keeps; [typeclasses eauto|].
  intros. apply remove_check_vacancy_resets.
Qed.

Lemma keeps_call_scans names n :
  n ∈ names -> keeps (scans_only names) (call respond (q_find_all_templates n)).
Proof.
  intros Hn w. unfold call, scans_only.
  destruct (respond _ (q_find_all_templates n) (device w)) as [[v|] s]; cbn;
    (constructor; [by eexists _, _|constructor]).
Qed.

Lemma locate_positions_keeps P `{!Composes P} types acc :
  (forall n, n ∈ types -> keeps P (call respond (q_find_all_templates n))) ->
  keeps P (locate_positions respond types acc).
Proof.
  revert acc. induction types as [|t types IH]; intros acc Hcall;
    cbn [locate_positions]; [footprint|].
  assert (forall acc, keeps P (locate_positions respond types acc)) as IH'.
  { intros acc'. apply IH. intros n Hn. apply Hcall, elem_of_cons. by right. }
  assert (keeps P (call respond (q_find_all_templates t))) as Ht.
  { apply Hcall, elem_of_cons. by left. }
  footprint.
Qed.

Lemma locate_positions_order types acc w all evs w' :
  NoDup types ->
  (forall p, p ∈ types -> p ∉ acc.*1) ->
  locate_positions respond types acc w = (Val all, evs, w') ->
  exists found, all.*1 = acc.*1 ++ found /\ found `sublist_of` types.
Proof.
  revert acc w evs. induction types as [|t types IH]; intros acc w evs Hnd Hfresh.
  { intros [= <- <- <-]. exists []. by rewrite app_nil_r. }
  apply NoDup_cons in Hnd as [Ht Hnd].
  cbn [locate_positions]. unfold bind at 1, call at 1.
  destruct (respond _ (q_find_all_templates t) (device w)) as [[r|] s1]; [|done].
  destruct r as [|first r].
  - destruct (locate_positions respond types acc _) as [[out evs2] w2] eqn:Hrest.
    intros [= -> <- <-].
    destruct (IH _ _ _ Hnd ltac:(intros p Hp; apply Hfresh, elem_of_cons; by right)
                Hrest) as (found & -> & Hsub).
    exists found. split; [done|]. by apply sublist_cons.
  - destruct (locate_positions respond types _ _) as [[out evs2] w2] eqn:Hrest.
    intros [= -> <- <-].
    assert ((dict_set t first acc).*1 = acc.*1 ++ [t]) as Hkeys.
    { rewrite dict_set_keys, bool_decide_eq_false_2; [done|].
      apply Hfresh, elem_of_cons. by left. }
    assert (forall p, p ∈ types -> p ∉ (dict_set t first acc).*1) as Hfresh'.
    { intros p Hp. rewrite Hkeys, elem_of_app, list_elem_of_singleton.
      intros [Hin| ->]; [|done].
      revert Hin. apply Hfresh, elem_of_cons. by right. }
    destruct (IH _ _ _ Hnd Hfresh' Hrest) as (found & -> & Hsub).
    exists (t :: found). rewrite Hkeys, <- app_assoc. split; [done|].
    by apply sublist_skip.
Qed.

Lemma find_positions_with_applicants_keeps P `{!Composes P} :
  (forall n, n ∈ secretary_types ++ additionalTypes ++ ["has_applicant"] ->
             keeps P (call respond (q_find_all_templates n))) ->
  keeps P (find_positions_with_applicants respond CONFIG).
Proof.
  intros Hcall. unfold find_positions_with_applicants.
  assert (forall acc,
             keeps P (locate_positions respond
                        (secretary_types ++ additionalTypes) acc)) as Hloc.
  { intros acc. apply locate_positions_keeps; [done|].
    intros n Hn. apply Hcall. rewrite app_assoc, elem_of_app. by left. }
  assert (keeps P (call respond (q_find_all_templates "has_applicant")))
    as Hbadge.
  { apply Hcall. rewrite app_assoc, elem_of_app. right.
    apply elem_of_cons. by left. }
  footprint.
Qed.

Lemma find_positions_with_applicants_returns w :
  exists result evs w',
    find_positions_with_applicants respond CONFIG w = (Val result, evs, w').
Proof.
  unfold find_positions_with_applicants, try_except. unfold bind at 1.
  destruct (locate_positions_run respond (secretary_types ++ additionalTypes) []
              w position_types_NoDup ltac:(constructor) ltac:(done))
    as (out & evs1 & w1 & -> & _ & Hout).
  destruct out as [all| |]; [|by eexists _, _, _|done].
  unfold bind, call.
  destruct (respond _ (q_find_all_templates "has_applicant") (device w1))
    as [[badges|] s2]; cbn; [destruct badges|]; by eexists _, _, _.
Qed.

(** X8: [find_positions_with_applicants] always returns and only looks: every
    call it makes is a template scan for one of the seven positions or for
    the badge, and no timer is written.  The positions it returns come in the
    order of the catalogue [secretary_types + additionalTypes], because the
    dictionary of located positions keeps its insertion order. *)
Theorem applicant_scan_footprint (w : world S) :
  exists result evs w',
    find_positions_with_applicants respond CONFIG w = (Val result, evs, w')
    /\ last_approve w' = last_approve w
    /\ result `sublist_of` secretary_types ++ additionalTypes
    /\ Forall (fun e => exists n r,
                 e = Ev (q_find_all_templates n) r
                 /\ n ∈ secretary_types ++ additionalTypes ++ ["has_applicant"])
         evs.
Proof.
  pose proof (find_positions_with_applicants_keeps timers_kept
                ltac:(intros; apply keeps_call_timers) w) as Htimers.
  pose proof (find_positions_with_applicants_keeps (scans_only _)
                ltac:(intros; by apply keeps_call_scans) w) as Hscans.
  unfold timers_kept, scans_only in *.
  revert Htimers Hscans.
  unfold find_positions_with_applicants, try_except. unfold bind at 1 3 5.
  destruct (locate_positions respond (secretary_types ++ additionalTypes) [] w)
    as [[[all| |] evs1] w1] eqn:Hloc; cbn [fst snd].
  - destruct (locate_positions_order (secretary_types ++ additionalTypes) []
                w all evs1 w1 position_types_NoDup
                ltac:(intros p _ ?%elem_of_nil; done) Hloc)
      as (found & Hall & Hsub).
    unfold bind, call.
    destruct (respond _ (q_find_all_templates "has_applicant") (device w1))
      as [[badges|] s2]; cbn.
    + destruct badges as [|badge badges]; cbn; intros Htimers Hscans.
      * eexists _, _, _. split; [reflexivity|]. split; [done|]. split; [|done].
        apply sublist_nil_l.
      * eexists _, _, _. split; [reflexivity|]. split; [done|]. split; [|done].
        etrans; [apply positions_near_applicants_sublist|].
        by rewrite Hall.
    + intros Htimers Hscans. eexists _, _, _. split; [reflexivity|].
      split; [done|]. split; [|done]. apply sublist_nil_l.
  - intros Htimers Hscans. eexists _, _, _. split; [reflexivity|].
    split; [done|]. split; [|done]. apply sublist_nil_l.
  - exfalso.
    destruct (locate_positions_run respond (secretary_types ++ additionalTypes) []
                w position_types_NoDup ltac:(constructor) ltac:(done))
      as (out & evs' & w'' & Hrun & _ & Hout).
    rewrite Hloc in Hrun. by injection Hrun as <- <- <-.
Qed.

End Scans.

(** ** Rounds: [process_all_auto_remove_positions] and
    [process_all_secretary_positions] *)

#[global] Instance timer_kept_composes {S} q : Composes (S := S) (timer_kept q).
Proof. split; unfold timer_kept; [done|]. congruence. Qed.

Lemma settled_app evs1 evs2 b :
  anchor_checks evs1 = [] \/ anchored evs1 ->
  (b = true <-> anchor_checks evs2 = [] \/ anchored evs2) ->
  (b = true <-> anchor_checks (evs1 ++ evs2) = [] \/ anchored (evs1 ++ evs2)).
Proof.
  intros H1 H2. rewrite anchor_checks_app.
  destruct (anchor_checks evs2) as [|r rs] eqn:Hchecks.
  - rewrite app_nil_r, anchored_app_l by done. split; [done|].
    intros _. apply H2. by left.
  - rewrite anchored_app_r by (by rewrite Hchecks). rewrite H2.
    split; [intros [?|?]; [done|by right]|].
    intros [Heq|?]; [|by right].
    by apply app_eq_nil in Heq as [_ ?].
Qed.

Section Rounds.
Context {S : Type} (respond : forall T, query T -> S -> res T * S).
Variable CONFIG : config.
Variable whitelist : list string.
Variable manual_deny : bool.

Lemma keeps_call_timer {T} q (c : query T) : keeps (timer_kept q) (call respond c).
Proof.
  intros w. unfold call, timer_kept.
  by destruct (respond T c (device w)) as [[v|] s].
Qed.

Lemma keeps_stamp_timer p q :
  p <> q -> keeps (timer_kept q) (stamp_last_approve respond p).
Proof.
  intros Hne w. unfold stamp_last_approve, set_last_approve, bind, call, timer_kept.
  destruct (respond _ q_now (device w)) as [[t|] s]; cbn; [|done].
  by rewrite lookup_insert_ne.
Qed.

Lemma stamps_timer_kept {A} p q (m : M S A) :
  p <> q -> keeps (stamps p) m -> keeps (timer_kept q) m.
Proof.
  intros Hne Hm w. destruct (Hm w) as [Hother _]. by apply Hother.
Qed.

Lemma remove_check_timer_kept delays p q :
  p <> q -> keeps (timer_kept q) (remove_check respond delays p).
Proof.
  intros Hne. unfold remove_check.
  pose proof (keeps_stamp_timer p q Hne) as Hstamp.
  pose proof (fun T (c : query T) => keeps_call_timer q c) as Hcall.
  footprint.
Qed.

Lemma process_remove_position_settled name w :
  exists b evs w',
    process_remove_position respond CONFIG name w = (Val b, evs, w')
    /\ taps evs = []
    /\ (b = true <-> anchor_checks evs = [] \/ anchored evs).
Proof.
  destruct (process_remove_position_run respond CONFIG name w)
    as (b & r & tail & w' & Hrun & _ & Ht & _ & Hends).
  eexists _, _, _. split; [exact Hrun|]. split; [done|].
  change (?e :: tail) with ([e] ++ tail).
  rewrite anchored_silent_l, anchor_checks_app by done.
  destruct Hends as [(-> & -> & ->)|[Ha Hne]].
  - split; [intros _; by left|done].
  - rewrite <- Ha. split; [intros ?; by right|]. by intros [?|?].
Qed.

Lemma remove_each_run positions w :
  exists b evs w',
    remove_each respond CONFIG positions w = (Val b, evs, w')
    /\ taps evs = []
    /\ (b = true <-> anchor_checks evs = [] \/ anchored evs).
Proof.
  revert w. induction positions as [|p positions IH]; intros w.
  { eexists _, _, _. split; [reflexivity|]. split; [done|].
    split; [intros _; by left|done]. }
  cbn [remove_each]. unfold bind at 1.
  destruct (process_remove_position_settled p w)
    as (ok & evs1 & w1 & -> & Ht & Hok).
  destruct ok; cbn [negb].
  - destruct (IH w1) as (b & evs2 & w2 & -> & Ht2 & Hb).
    eexists _, _, _. split; [reflexivity|].
    split; [by rewrite taps_app, Ht, Ht2|].
    apply settled_app; [by apply Hok|done].
  - eexists _, _, _. split; [reflexivity|]. rewrite app_nil_r. done.
Qed.

Lemma remove_each_keeps P `{!Composes P} positions :
  (forall p, p ∈ positions ->
             keeps P (process_remove_position respond CONFIG p)) ->
  keeps P (remove_each respond CONFIG positions).
Proof.
  induction positions as [|p positions IH]; intros Hp; cbn [remove_each];
    [footprint|].
  assert (keeps P (remove_each respond CONFIG positions)) as IH'.
  { apply IH. intros q Hq. apply Hp, elem_of_cons. by right. }
  assert (keeps P (process_remove_position respond CONFIG p)) as Hhead.
  { apply Hp, elem_of_cons. by left. }
  footprint.
Qed.

Lemma remove_each_timer_kept positions q :
  q ∉ positions -> keeps (timer_kept q) (remove_each respond CONFIG positions).
Proof.
  intros Hq. apply remove_each_keeps; [typeclasses eauto|].
  intros p Hp. apply (stamps_timer_kept p); [by intros ->|].
  apply process_remove_position_stamps.
Qed.

(** X10: [process_all_auto_remove_positions] always returns a boolean and
    never calls [humanized_tap].  It returns [True] exactly when no recovery
    was needed at all or the last anchor check of the round saw the anchor:
    the round stops at the first position whose recovery fails.  It writes
    no timer outside the catalogue of positions. *)
Theorem eviction_round (w : world S) :
  exists b evs w',
    process_all_auto_remove_positions respond CONFIG w = (Val b, evs, w')
    /\ taps evs = []
    /\ (b = true <-> anchor_checks evs = [] \/ anchored evs)
    /\ forall q, q ∉ secretary_types ++ additionalTypes ->
         last_approve w' !! q = last_approve w !! q.
Proof.
  unfold process_all_auto_remove_positions, bind.
  destruct (find_positions_to_remove_sublist respond CONFIG w)
    as (result & evs0 & w0 & Hscan & Hsub).
  assert (forall X (f : event -> list X),
             (forall r, f (Ev q_now r) = []) ->
             (forall n r, f (Ev (q_find_template n) r) = []) ->
             evs0 ≫= f = []) as Hsilent.
  { intros X f H1 H2.
    refine (keeps_run (silent f) _ _ _ _ _ _ Hscan).
    apply find_positions_to_remove_keeps; [typeclasses eauto|].
    intros. by apply remove_check_silent. }
  assert (forall q, q ∉ secretary_types ++ additionalTypes ->
                    last_approve w0 !! q = last_approve w !! q) as Htimers0.
  { intros q Hq.
    refine (keeps_run (timer_kept q) _ _ _ _ _ _ Hscan).
    apply find_positions_to_remove_keeps; [typeclasses eauto|].
    intros delays p Hp. apply remove_check_timer_kept. by intros ->. }
  rewrite Hscan.
  destruct (remove_each_run result w0) as (b & evs1 & w1 & Heach & Ht & Hb).
  rewrite Heach. eexists _, _, _. split; [reflexivity|].
  split; [rewrite taps_app, Ht; unfold taps; by rewrite Hsilent|].
  split.
  - apply settled_app; [|done]. left. unfold anchor_checks. by rewrite Hsilent.
  - intros q Hq. rewrite <- Htimers0 by done.
    refine (keeps_run (timer_kept q) _ _ _ _ _ _ Heach).
    apply remove_each_timer_kept. intros Hin. apply Hq.
    by eapply elem_of_sublist.
Qed.

Lemma process_each_never_raises fuel positions w :
  (process_each respond CONFIG whitelist manual_deny fuel positions w).1.1
  <> Raised.
Proof.
  revert w. induction positions as [|p positions IH]; intros w; [done|].
  cbn [process_each]. unfold bind.
  destruct (process_secretary_position_ends respond CONFIG whitelist manual_deny
              fuel p w) as (out & evs & w1 & -> & Hnr & _).
  destruct out as [[|]| |]; cbn [negb]; [|done..].
  specialize (IH w1).
  by destruct (process_each _ _ _ _ _ _ w1) as [[out evs2] w2].
Qed.

Lemma process_each_keeps P `{!Composes P} fuel positions :
  (forall p, p ∈ positions ->
             keeps P (process_secretary_position respond CONFIG whitelist
                        manual_deny fuel p)) ->
  keeps P (process_each respond CONFIG whitelist manual_deny fuel positions).
Proof.
  induction positions as [|p positions IH]; intros Hp; cbn [process_each];
    [footprint|].
  assert (keeps P (process_each respond CONFIG whitelist manual_deny fuel
                     positions)) as IH'.
  { apply IH. intros q Hq. apply Hp, elem_of_cons. by right. }
  assert (keeps P (process_secretary_position respond CONFIG whitelist
                     manual_deny fuel p)) as Hhead.
  { apply Hp, elem_of_cons. by left. }
  footprint.
Qed.

Lemma process_each_timer_kept fuel positions q :
  q ∉ positions ->
  keeps (timer_kept q)
    (process_each respond CONFIG whitelist manual_deny fuel positions).
Proof.
  intros Hq. apply process_each_keeps; [typeclasses eauto|].
  intros p Hp. apply (stamps_timer_kept p); [by intros ->|].
  apply process_secretary_position_stamps.
Qed.

(** X11: [process_all_secretary_positions] first runs the applicant scan.
    When the scan finds nothing, the round only probes the menu: it taps the
    icon of the first position, "strategy", and nothing else, writes no
    timer, and either returns [True], having tapped the icon and seen the
    list button, or raises; it raises whenever the list button was not
    seen.  When the scan finds positions the round never raises, and it
    writes no timer but those of the positions found. *)
Theorem admission_round (fuel : nat) (w : world S) :
  exists result evs0 w0 out evs1 w',
    find_positions_with_applicants respond CONFIG w = (Val result, evs0, w0)
    /\ process_all_secretary_positions respond CONFIG whitelist manual_deny fuel w
       = (out, evs0 ++ evs1, w')
    /\ match result with
       | [] =>
           last_approve w' = last_approve w
           /\ taps evs1 = [] /\ anchor_checks evs1 = []
           /\ template_taps evs1 = ["strategy"]
           /\ match out with
              | Val b =>
                  b = true /\ done_template_taps "strategy" evs1 = 1%nat
                  /\ exists c, template_lookups "list" evs1 = [Ok (Some c)]
              | Raised => forall c, template_lookups "list" evs1 <> [Ok (Some c)]
              | OutOfFuel => False
              end
       | _ =>
           out <> Raised
           /\ forall q, q ∉ result ->
                last_approve w' !! q = last_approve w !! q
       end.
Proof.
  destruct (find_positions_with_applicants_returns respond CONFIG w)
    as (result & evs0 & w0 & Hscan).
  pose proof (find_positions_with_applicants_keeps respond CONFIG timers_kept
                ltac:(intros; apply keeps_call_timers) w) as Htimers.
  rewrite Hscan in Htimers. unfold timers_kept in Htimers. cbn in Htimers.
  unfold process_all_secretary_positions. unfold bind at 1. rewrite Hscan.
  exists result, evs0, w0.
  destruct result as [|p result].
  - unfold secretary_types, stamp_last_approve, set_last_approve, bind, call, ret,
      raise_exn.
    run; eexists _, _, _; (split; [reflexivity|]); (split; [reflexivity|]);
      (split; [done|]);
      repeat match goal with
        | H : negb (bool_decide (is_Some ?o)) = _ |- _ =>
            destruct o; vm_compute in H; try discriminate H; clear H
        | H : negb ?a = _ |- _ =>
            destruct a; cbn in H; try discriminate H; clear H
        end;
      vm_compute; intuition (eauto; discriminate).
  - pose proof (process_each_never_raises fuel (p :: result) w0) as Hnr.
    destruct (process_each _ _ _ _ _ _ w0) as [[out evs1] w'] eqn:Heach.
    eexists _, _, _. do 2 (split; [reflexivity|]). split; [done|].
    intros q Hq. rewrite <- Htimers.
    exact (keeps_run (timer_kept q) _ _ _ _ _
             (process_each_timer_kept fuel (p :: result) q Hq) Heach).
Qed.

End Rounds.

(** ** Construction: the timers of [__init__] *)

Section Construction.
Context {S : Type} (respond : forall T, query T -> S -> res T * S).

Lemma timers_at_construction_run positions acc w :
  NoDup positions ->
  exists out evs w',
    timers_at_construction respond positions acc w = (out, evs, w')
    /\ last_approve w' = last_approve w
    /\ match out with
       | Val d =>
           length (clock_readings evs) = length positions
           /\ (forall i p, positions !! i = Some p ->
                 d !! p = clock_readings evs !! i)
           /\ (forall p, p ∉ positions -> d !! p = acc !! p)
       | Raised => (length (clock_readings evs) < length positions)%nat
       | OutOfFuel => False
       end.
Proof.
  revert acc w. induction positions as [|p positions IH]; intros acc w Hnd.
  { eexists _, _, _. split; [reflexivity|]. split; [done|]. by split. }
  apply NoDup_cons in Hnd as [Hp Hnd].
  cbn [timers_at_construction]. unfold bind at 1, call at 1.
  destruct (respond _ q_now (device w)) as [[t|] s1].
  2:{ eexists _, _, _. split; [reflexivity|]. split; [done|]. cbn. lia. }
  destruct (IH (<[p := t]> acc) (World s1 (last_approve w)) Hnd)
    as (out & evs & w' & -> & Hla & Hout).
  eexists _, _, _. split; [reflexivity|]. split; [done|].
  change ([Ev q_now (Ok t)] ++ evs) with (Ev q_now (Ok t) :: evs).
  rewrite clock_readings_cons. cbn [reading_of app length].
  destruct out as [d| |]; [|lia|done].
  destruct Hout as (Hlen & Hat & Hother).
  split; [by rewrite Hlen|]. split.
  - intros [|i] q Hq; cbn in Hq |- *.
    + injection Hq as <-. by rewrite (Hother p Hp), lookup_insert_eq.
    + by apply Hat.
  - intros q [Hne Hq]%not_elem_of_cons.
    by rewrite (Hother q Hq), lookup_insert_ne.
Qed.

(** X12: the construction of [last_approve] reads the clock once for each of
    the seven positions, in the order of the catalogue, and gives the i-th
    position the i-th reading; no other key is present.  When the clock
    raises, [last_approve] is not assigned. *)
Theorem construction_timers (w : world S) :
  exists out evs w',
    init_last_approve respond w = (out, evs, w')
    /\ match out with
       | Val _ =>
           length (clock_readings evs) = 7%nat
           /\ (forall i p, (secretary_types ++ additionalTypes) !! i = Some p ->
                 last_approve w' !! p = clock_readings evs !! i)
           /\ (forall p, p ∉ secretary_types ++ additionalTypes ->
                 last_approve w' !! p = None)
       | Raised => last_approve w' = last_approve w
       | OutOfFuel => False
       end.
Proof.
  unfold init_last_approve, bind, put_last_approve.
  destruct (timers_at_construction_run (secretary_types ++ additionalTypes) ∅ w
              position_types_NoDup) as (out & evs & w' & -> & Hla & Hout).
  destruct out as [d| |]; [|by eexists _, _, _|done].
  destruct Hout as (Hlen & Hat & Hother).
  eexists _, _, _. split; [reflexivity|]. rewrite app_nil_r. cbn [last_approve].
  split; [done|]. split; [done|].
  intros p Hp. by rewrite (Hother p Hp).
Qed.

End Construction.

(** ** The timers persist *)

#[global] Instance timers_persist_composes {S} :
  Composes (S := S) timers_persist.
Proof. split; unfold timers_persist; [done|]. eauto. Qed.

Lemma raises_cons e evs : raises (e :: evs) = (length (exn_of e) + raises evs)%nat.
Proof.
  change (e :: evs) with ([e] ++ evs). rewrite raises_app.
  unfold raises. cbn. by rewrite app_nil_r.
Qed.

Section Persistence.
Context {S : Type} (respond : forall T, query T -> S -> res T * S).
Variable CONFIG : config.
Variable whitelist : list string.
Variable manual_deny : bool.

Lemma keeps_weaken {A} (P Q : run_property S) (m : M S A) :
  (forall w evs w', P w evs w' -> Q w evs w') -> keeps P m -> keeps Q m.
Proof. intros HPQ Hm w. apply HPQ, Hm. Qed.

Lemma timers_kept_persist w evs (w' : world S) :
  timers_kept w evs w' -> timers_persist w evs w'.
Proof. unfold timers_kept, timers_persist. by intros ->. Qed.

Lemma stamps_persist name w evs (w' : world S) :
  stamps name w evs w' -> timers_persist w evs w'.
Proof.
  intros [Hother Hname] p Hp. destruct (decide (p = name)) as [->|Hne].
  - destruct (last (clock_readings evs)); [by rewrite Hname|by rewrite Hname].
  - by rewrite Hother.
Qed.

Lemma remove_check_persist delays p :
  keeps timers_persist (remove_check respond delays p).
Proof.
  assert (forall T (q : query T), keeps timers_persist (call respond q)) as Hcall.
  { intros T q. apply (keeps_weaken timers_kept); [apply timers_kept_persist|].
    apply keeps_call_timers. }
  assert (keeps timers_persist (stamp_last_approve respond p)) as Hstamp.
  { apply (keeps_weaken (stamps p)); [apply stamps_persist|].
    apply keeps_stamp_stamps. }
  unfold remove_check. footprint.
Qed.

(** X13: neither round ever deletes a timer: a key of [last_approve] present
    before [process_all_secretary_positions] or
    [process_all_auto_remove_positions] is present after it, however the
    round ends. *)
Theorem timers_are_never_deleted (fuel : nat) (w : world S) :
  (exists out evs w',
      process_all_secretary_positions respond CONFIG whitelist manual_deny fuel w
      = (out, evs, w')
      /\ forall p, is_Some (last_approve w !! p)
                   -> is_Some (last_approve w' !! p))
  /\ (exists out evs w',
        process_all_auto_remove_positions respond CONFIG w = (out, evs, w')
        /\ forall p, is_Some (last_approve w !! p)
                     -> is_Some (last_approve w' !! p)).
Proof.
  assert (forall T (q : query T), keeps timers_persist (call respond q)) as Hcall.
  { intros T q. apply (keeps_weaken timers_kept); [apply timers_kept_persist|].
    apply keeps_call_timers. }
  split.
  - assert (keeps timers_persist
              (process_all_secretary_positions respond CONFIG whitelist
                 manual_deny fuel)) as Hkeeps.
    { pose proof (find_positions_with_applicants_keeps respond CONFIG
                    timers_persist ltac:(intros; apply Hcall)) as Hscan.
      assert (forall positions,
                 keeps timers_persist
                   (process_each respond CONFIG whitelist manual_deny fuel
                      positions)) as Heach.
      { intros positions. apply process_each_keeps; [typeclasses eauto|].
        intros p _. apply (keeps_weaken (stamps p)); [apply stamps_persist|].
        apply process_secretary_position_stamps. }
      unfold process_all_secretary_positions, secretary_types. footprint. }
    specialize (Hkeeps w).
    destruct (process_all_secretary_positions _ _ _ _ _ w) as [[out evs] w'].
    by exists out, evs, w'.
  - assert (keeps timers_persist
              (process_all_auto_remove_positions respond CONFIG)) as Hkeeps.
    { pose proof (find_positions_to_remove_keeps respond CONFIG timers_persist
                    ltac:(intros; apply remove_check_persist)) as Hscan.
      assert (forall positions,
                 keeps timers_persist (remove_each respond CONFIG positions))
        as Heach.
      { intros positions. apply remove_each_keeps; [typeclasses eauto|].
        intros p _. apply (keeps_weaken (stamps p)); [apply stamps_persist|].
        apply process_remove_position_stamps. }
      unfold process_all_auto_remove_positions. footprint. }
    specialize (Hkeeps w).
    destruct (process_all_auto_remove_positions _ _ w) as [[out evs] w'].
    by exists out, evs, w'.
Qed.



End Persistence.

(** ** Runs on the mock game *)

(** C3 on a run: the reject control of the row is level with its accept
    control, so it is tapped and the confirm control after it. *)
Lemma reject_control_selection_witness :
  exists out evs w',
    reject_candidate (Mock.respond Mock.plain) false "science" (900, 400)
      "XYZ" "XYZ" (Mock.start ["XYZ"] 1000000 0) = (out, evs, w')
    /\ template_matches "reject" evs = [Ok [(700, 400)]]
    /\ taps evs = [(700, 400)]
    /\ (template_taps evs = ["confirm"] \/ out = Raised).
Proof.
  eexists _, _, _. split; [vm_compute; reflexivity|].
  split; [vm_compute; reflexivity|].
  refine (proj1 (proj2 (reject_control_selection (Mock.respond Mock.plain) false
            "science" (900, 400) "XYZ" "XYZ" (Mock.start ["XYZ"] 1000000 0)
            _ _ _ _)) [(700, 400)] (700, 400) _ _);
    vm_compute; reflexivity.
Defined.



(** C9 on a run in which every tap raises. *)
Lemma exception_leads_to_recovery_witness :
  exists evs1 w1 b evs2 w2,
    process_secretary_position_body (Mock.respond Mock.raising) Mock.CONFIG []
      false 6 "science" (Mock.start ["XYZ"] 1000000 0) = (Raised, evs1, w1)
    /\ exit_to_secretary_menu (Mock.respond Mock.raising) Mock.CONFIG w1
       = (Val b, evs2, w2)
    /\ process_secretary_position (Mock.respond Mock.raising) Mock.CONFIG []
         false 6 "science" (Mock.start ["XYZ"] 1000000 0)
       = (Val b, evs1 ++ evs2, w2).
Proof.
  eexists _, _.
  destruct (exception_leads_to_recovery (Mock.respond Mock.raising) Mock.CONFIG []
              false 6 "science" (Mock.start ["XYZ"] 1000000 0) _ _
              ltac:(vm_compute; reflexivity)) as (b & evs2 & w2 & Hexit & Hrun).
  exists b, evs2, w2. split; [vm_compute; reflexivity|].
  exact (conj Hexit Hrun).
Defined.

(** In that run the tap on the accept control raises after the position and
    its list were opened, two back-navigations bring the anchor back, and the
    method returns [True]. *)
Example recovery_after_exception :
  exists evs w',
    process_secretary_position (Mock.respond Mock.raising) Mock.CONFIG []
      false 6 "science" (Mock.start ["XYZ"] 1000000 0) = (Val true, evs, w')
    /\ raises evs = 1%nat /\ backs evs = 2%nat.
Proof. eexists _, _. split; [vm_compute; reflexivity|]. by vm_compute. Qed.


(** C10 on a run: the science position, with a delay of 0, is not listed. *)
Lemma zero_delay_is_never_due_witness :
  exists result evs w',
    find_positions_to_remove (Mock.respond Mock.menu) Mock.CONFIG_auto_remove
      (Mock.start [] 400000000 0) = (Val result, evs, w')
    /\ "science" ∉ result.
Proof.
  apply (zero_delay_is_never_due (Mock.respond Mock.menu) Mock.CONFIG_auto_remove
           Mock.auto_remove Mock.delays "science"
           (Mock.start [] 400000000 0));
    vm_compute; reflexivity.
Defined.

Example eviction_scan :
  exists evs w',
    find_positions_to_remove (Mock.respond Mock.menu) Mock.CONFIG_auto_remove
      (Mock.start [] 400000000 0) = (Val ["military"], evs, w')
    /\ template_lookups "vacant-science" evs = []
    /\ template_lookups "science" evs = [].
Proof. eexists _, _. split; [vm_compute; reflexivity|]. by vm_compute. Qed.

(** C1, where the code falls short: one applicant of the whitelisted
    alliance "ABC" for the science position.  The accept control is tapped
    once and the loop ends on its second pass, the list being empty, but the
    clock is never read and the timer of the position stays where it was;
    with an empty whitelist the same run stamps the timer after the tap. *)
Lemma whitelisted_admission_keeps_timer :
  exists evs g evs' g',
    process_secretary_position (Mock.respond Mock.plain) Mock.CONFIG ["ABC"]
      false 6 "science" (Mock.start ["ABC"] 1000000 0)
    = (Val true, evs, World g (Mock.last_approve_at 0))
    /\ extracted evs = [("ABC", "ABC")]
    /\ taps evs = [(900, 400)]
    /\ screenshots evs = 2%nat
    /\ clock_readings evs = []
    /\ Mock.queue g = []
    /\ process_secretary_position (Mock.respond Mock.plain) Mock.CONFIG []
         false 6 "science" (Mock.start ["ABC"] 1000000 0)
       = (Val true, evs', World g' (<["science" := 1508000]> (Mock.last_approve_at 0)))
    /\ taps evs' = [(900, 400)].
Proof.
  eexists _, _, _, _. split; [vm_compute; reflexivity|].
  do 5 (split; [vm_compute; reflexivity|]).
  split; [vm_compute; reflexivity|]. vm_compute; reflexivity.
Qed.

(** C3, as stated, fails: with the only reject control 11 px below the accept
    control of a candidate outside the whitelist, the pass logs the rejection
    and then taps nothing, not even the confirm control, and the candidate
    counts as processed. *)
Lemma misaligned_reject_skips_confirm :
  exists evs w',
    admission_pass (Mock.respond Mock.misaligned) ["ABC"] false "science"
      (Mock.start ["XYZ"] 1000000 0) = (Val (Counted 0), evs, w')
    /\ template_matches "accept" evs = [Ok [(900, 400)]]
    /\ rejections_logged evs = [("XYZ", "XYZ")]
    /\ template_matches "reject" evs = [Ok [(700, 411)]]
    /\ taps evs = []
    /\ template_taps evs = [].
Proof.
  eexists _, _. split; [vm_compute; reflexivity|]. by vm_compute.
Qed.

Example applicant_scan_at_the_edge :
  exists evs w',
    find_positions_with_applicants (Mock.respond Mock.menu) Mock.CONFIG
      (Mock.start [] 1000000 0) = (Val ["science"], evs, w')
    /\ template_matches "science" evs = [Ok [(200, 500)]]
    /\ template_matches "has_applicant" evs = [Ok [(350, 550)]].
Proof. eexists _, _. split; [vm_compute; reflexivity|]. by vm_compute. Qed.

Example applicant_scan_past_the_edge :
  exists evs w',
    find_positions_with_applicants (Mock.respond Mock.menu_badge_off) Mock.CONFIG
      (Mock.start [] 1000000 0) = (Val [], evs, w')
    /\ template_matches "has_applicant" evs = [Ok [(351, 550)]].
Proof. eexists _, _. split; [vm_compute; reflexivity|]. by vm_compute. Qed.

Example recovery_after_nine_backs :
  exists evs w',
    exit_to_secretary_menu (Mock.respond Mock.plain) Mock.CONFIG
      (Mock.start [] 1000000 9) = (Val true, evs, w')
    /\ backs evs = 9%nat /\ length (anchor_checks evs) = 10%nat.
Proof. eexists _, _. split; [vm_compute; reflexivity|]. by vm_compute. Qed.

Example five_of_seven_applicants :
  exists evs w',
    admission_loop (Mock.respond Mock.plain) Mock.CONFIG [] false 6 "science" 0 0
      (Mock.start ["A"; "B"; "C"; "D"; "E"; "F"; "G"] 1000000 0)
    = (Val (5%nat, 0%nat), evs, w')
    /\ length (taps evs) = 5%nat /\ Mock.queue (device w') = ["F"; "G"].
Proof. eexists _, _. split; [vm_compute; reflexivity|]. by vm_compute. Qed.



(** A routine whose timers are missing: the scan fails on the timer of the
    military position, the exception is swallowed and the due position is
    not reported, though no collaborator raised. *)
Example missing_timer_ends_scan_silently :
  (find_positions_to_remove (Mock.respond Mock.held) Mock.CONFIG_auto_remove
     (World (Mock.Game [] 400000000 0) ∅)).1
  = (Val [], [Ev q_now (Ok 400000000)])
  /\ (find_positions_to_remove (Mock.respond Mock.held) Mock.CONFIG_auto_remove
        (Mock.start [] 400000000 0)).1.1
     = Val ["military"].
Proof. split; vm_compute; reflexivity. Qed.

(** The dismissal of the holder of the military position, 400 s after its
    timer was set: dismiss, confirm, and the timer is set anew. *)
Example dismissal_of_a_held_position :
  exists evs w',
    process_remove_position (Mock.respond Mock.held) Mock.CONFIG "military"
      (Mock.start [] 400000000 0)
    = (Val true, evs, w')
    /\ template_taps evs = ["military"; "dismiss"; "confirm-blue"]
    /\ clock_readings evs = [401505000]
    /\ last_approve w' !! "military" = Some 401505000
    /\ last_approve w' !! "science" = Some 0.
Proof.
  eexists _, _. split; [vm_compute; reflexivity|].
  repeat split; vm_compute; reflexivity.
Qed.

(** The timers of a routine constructed on a clock that reads 5000 and
    advances by 1000 with every reading. *)
Example timers_of_a_new_routine :
  exists evs w',
    init_last_approve (Mock.respond Mock.plain) (World (Mock.Game [] 5000 0) ∅)
    = (Val (), evs, w')
    /\ clock_readings evs = [5000; 6000; 7000; 8000; 9000; 10000; 11000]
    /\ last_approve w' !! "strategy" = Some 5000
    /\ last_approve w' !! "administrative" = Some 11000.
Proof.
  eexists _, _. split; [vm_compute; reflexivity|].
  repeat split; vm_compute; reflexivity.
Qed.

(** A menu with no applicant and no list button: the round raises. *)
Example round_on_a_glitched_menu :
  exists evs w',
    process_all_secretary_positions (Mock.respond Mock.plain) Mock.CONFIG []
      false 10 (Mock.start [] 1000 0)
    = (Raised, evs, w')
    /\ template_taps evs = ["strategy"]
    /\ template_lookups "list" evs = [Ok None].
Proof.
  eexists _, _. split; [vm_compute; reflexivity|].
  split; vm_compute; reflexivity.
Qed.
